(** * The chat widget of [src/App.js]: session identifier, history and the
      request life cycle of [sendMessage]

    The component [Chatbot] keeps four pieces of React state ([messages],
    [input], [sessionId], [isLoading]), reads and writes one key of
    [sessionStorage], draws identifiers from [uuid]'s [v4] and posts to one
    endpoint with [axios].  The embedding keeps that shape: the React state
    is a record, the browser around it is a second record, and the code of
    the component is written in a small state-and-exception monad whose
    actions are the setters and the browser calls of the source. *)

From Stdlib Require Import Ascii String ZArith.
From stdpp Require Import base option list strings gmap.

Open Scope string_scope.
Open Scope list_scope.

(** ** JavaScript values

    The body of a failed response is whatever the server sent; the source
    reads one property of it and compares the result with [null] by [===].
    Objects are kept as the list of their own properties, in order. *)

#[warnings="-register-all"] Inductive jsval : Type :=
| JUndefined
| JNull
| JBool (b : bool)
| JNum (n : Z)
| JStr (s : string)
| JArr (items : list jsval)
| JObj (fields : list (string * jsval)).

(** [error.response] of an axios error: only [data] is read. *)
Record Response : Type := mkResponse { data : jsval }.

(** The values that reach the [catch] block: an axios rejection, whose
    [response] is absent when no reply arrived at all, or a [TypeError]
    raised by the component's own code. *)
Inductive thrown : Type :=
| AxiosError (response : option Response)
| TypeError.

Inductive Completion (A : Type) : Type :=
| Normal (a : A)
| Throw (e : thrown).
Arguments Normal {A} a.
Arguments Throw {A} e.

(** ** Strings and [String.prototype.trim]

    A string is a sequence of code units; the model has the code units
    below 256.  Of the characters [trim] strips (WhiteSpace and
    LineTerminator of the language standard) these are in that range:
    TAB, LF, VT, FF, CR, SPACE and NO-BREAK SPACE. *)

Definition isWhiteSpace (c : ascii) : bool :=
  let n := nat_of_ascii c in
  (Nat.leb 9 n && Nat.leb n 13) || Nat.eqb n 32 || Nat.eqb n 160.

Fixpoint trimStart (s : string) : string :=
  match s with
  | EmptyString => EmptyString
  | String c rest => if isWhiteSpace c then trimStart rest else s
  end.

Fixpoint trimEnd (s : string) : string :=
  match s with
  | EmptyString => EmptyString
  | String c rest =>
      match trimEnd rest with
      | EmptyString => if isWhiteSpace c then EmptyString else String c EmptyString
      | kept => String c kept
      end
  end.

Definition trim (s : string) : string := trimEnd (trimStart s).

(** Every code unit of the string is stripped by [trim]. *)
Fixpoint blank (s : string) : bool :=
  match s with
  | EmptyString => true
  | String c rest => isWhiteSpace c && blank rest
  end.

(** ** Data model *)

(** [{ text: ... }] *)
Record Part : Type := mkPart { text : string }.

(** [{ role: ..., parts: [...] }] *)
Record Message : Type := mkMessage { role : string; parts : list Part }.

(** The body of the POST: [{ sessionId, message: input }]. *)
Record Request : Type := mkRequest { req_sessionId : string; req_message : string }.

(** [res.data] of a fulfilled request when it has the shape that the
    contract of the service gives it: [{ sessionId: string, history: Message[] }].
    The component does not check the shape.  A body that is [null] or
    [undefined] makes line 40 throw a [TypeError] inside the [try], which is
    [Rejected TypeError] below; what the component does with a body of yet
    another shape is outside this model. *)
Record ChatReply : Type := mkChatReply { res_sessionId : string; res_history : list Message }.

(** How the promise of [axios.post] settles. *)
Inductive settlement : Type :=
| Fulfilled (res : ChatReply)
| Rejected (error : thrown).

(** The four [useState] cells of [Chatbot]. *)
Record Chatbot : Type := mkChatbot {
  messages : list Message;
  input : string;
  sessionId : string;
  isLoading : bool
}.

(** The browser around the component: [sessionStorage], the requests handed
    to [axios.post] so far (oldest first, with their URL), and the source of
    [uuidv4]: [uuid_src k] is what the [k]-th call returns, [uuid_next] counts
    the calls made. *)
Record Env : Type := mkEnv {
  sessionStorage : gmap string string;
  posted : list (string * Request);
  uuid_src : nat -> string;
  uuid_next : nat
}.

Record World : Type := mkWorld { ui : Chatbot; env : Env }.

(** ** The monad of the component's code *)

Definition M (St A : Type) : Type := St -> Completion A * St.

#[global] Instance M_ret {St} : MRet (M St) := fun A a s => (Normal a, s).

#[global] Instance M_bind {St} : MBind (M St) := fun A B k m s =>
  match m s with
  | (Normal a, s') => k a s'
  | (Throw e, s') => (Throw e, s')
  end.

Definition throw {St A} (e : thrown) : M St A := fun s => (Throw e, s).

(** [try { body } catch (error) { handler error }] *)
Definition try_catch {St A} (body : M St A) (handler : thrown -> M St A) : M St A :=
  fun s =>
    match body s with
    | (Normal a, s') => (Normal a, s')
    | (Throw e, s') => handler e s'
    end.

(** [try { body } finally { cleanup }]: the cleanup runs on both exits; the
    completion of the body stands unless the cleanup itself throws. *)
Definition try_finally {St A} (body : M St A) (cleanup : M St unit) : M St A :=
  fun s =>
    match body s with
    | (c, s') =>
        match cleanup s' with
        | (Normal _, s'') => (c, s'')
        | (Throw e, s'') => (Throw e, s'')
        end
    end.

Definition modify {St} (f : St -> St) : M St unit := fun s => (Normal tt, f s).
Definition gets {St A} (f : St -> A) : M St A := fun s => (Normal (f s), s).

(** ** Browser calls and React setters

    The browser calls work on any state that contains an [Env], so that the
    [useState] initializer (which runs before the component has state) and
    [sendMessage] share them. *)

Class HasEnv (St : Type) : Type := {
  get_env : St -> Env;
  with_env : (Env -> Env) -> St -> St
}.

#[global] Instance Env_HasEnv : HasEnv Env :=
  {| get_env := fun e => e; with_env := fun f e => f e |}.

#[global] Instance World_HasEnv : HasEnv World :=
  {| get_env := env; with_env := fun f w => mkWorld (ui w) (f (env w)) |}.

(** [sessionStorage.getItem(key)]: the stored string, or [null]. *)
Definition getItem {St : Type} `{!HasEnv St} (key : string) : M St (option string) :=
  gets (fun s => sessionStorage (get_env s) !! key).

(** [sessionStorage.setItem(key, value)] *)
Definition setItem {St : Type} `{!HasEnv St} (key value : string) : M St unit :=
  modify (with_env (fun e =>
    mkEnv (<[key := value]> (sessionStorage e)) (posted e) (uuid_src e) (uuid_next e))).

(** [uuidv4()] *)
Definition uuidv4 {St : Type} `{!HasEnv St} : M St string :=
  fun s =>
    let e := get_env s in
    (Normal (uuid_src e (uuid_next e)),
     with_env (fun e => mkEnv (sessionStorage e) (posted e) (uuid_src e) (S (uuid_next e))) s).

(** [axios.post(url, body)] up to the point where the promise is handed
    back: the request is on its way. *)
Definition axios_post {St : Type} `{!HasEnv St} (url : string) (body : Request) : M St unit :=
  modify (with_env (fun e =>
    mkEnv (sessionStorage e) (posted e ++ [(url, body)]) (uuid_src e) (uuid_next e))).

Definition on_ui (f : Chatbot -> Chatbot) : M World unit :=
  modify (fun w => mkWorld (f (ui w)) (env w)).

(** [setMessages(value)] and [setMessages(prev => ...)]: React applies the
    queued updates of one cell in the order of the calls, an updater function
    to the value the earlier updates left. *)
Definition setMessages (value : list Message) : M World unit :=
  on_ui (fun c => mkChatbot value (input c) (sessionId c) (isLoading c)).

Definition setMessagesWith (updater : list Message -> list Message) : M World unit :=
  on_ui (fun c => mkChatbot (updater (messages c)) (input c) (sessionId c) (isLoading c)).

Definition setInput (value : string) : M World unit :=
  on_ui (fun c => mkChatbot (messages c) value (sessionId c) (isLoading c)).

Definition setSessionId (value : string) : M World unit :=
  on_ui (fun c => mkChatbot (messages c) (input c) value (isLoading c)).

Definition setIsLoading (value : bool) : M World unit :=
  on_ui (fun c => mkChatbot (messages c) (input c) (sessionId c) value).

(** ** JavaScript operators used by the component *)

(** Truthiness of a value that is a string or [null]: [null] and the empty
    string are falsy.  [truthy v] is the string when [v] is truthy. *)
Definition truthy (v : option string) : option string :=
  match v with
  | Some s => if String.eqb s "" then None else Some s
  | None => None
  end.

Fixpoint own_property (fields : list (string * jsval)) (key : string) : jsval :=
  match fields with
  | [] => JUndefined
  | (k, v) :: rest => if String.eqb k key then v else own_property rest key
  end.

(** [v.key] for a key that no prototype defines (the source reads
    [sessionId] only): a [TypeError] on [null] and [undefined], the own
    property of an object, [undefined] elsewhere. *)
Definition get_prop (v : jsval) (key : string) : Completion jsval :=
  match v with
  | JUndefined | JNull => Throw TypeError
  | JObj fields => Normal (own_property fields key)
  | _ => Normal JUndefined
  end.

(** [v === null] *)
Definition strict_null (v : jsval) : bool :=
  match v with
  | JNull => true
  | _ => false
  end.

(** [error.response]: an axios error carries it when the server replied; a
    [TypeError] has no such property. *)
Definition error_response (error : thrown) : option Response :=
  match error with
  | AxiosError r => r
  | TypeError => None
  end.

(** [error.response && error.response.data.sessionId === null]: [&&] stops
    at an absent response, the property read throws on a body that is [null]
    or [undefined]. *)
Definition invalidation_signal (error : thrown) : Completion bool :=
  match error_response error with
  | None => Normal false
  | Some r =>
      match get_prop (data r) "sessionId" with
      | Normal v => Normal (strict_null v)
      | Throw e => Throw e
      end
  end.

(** An expression without effect on the state, inside the monad. *)
Definition eval {St A} (c : Completion A) : M St A := fun s => (c, s).

(** [await p]: the value of a fulfilled promise, a throw of the reason of a
    rejected one. *)
Definition await {St} (p : settlement) : M St ChatReply :=
  match p with
  | Fulfilled res => mret res
  | Rejected error => throw error
  end.

(** ** The component *)

(** The initializer of the [sessionId] cell (lines 8 to 16):
    [!storedSessionId] holds for [null] and for the empty string. *)
Definition initSession : M Env string :=
  storedSessionId ← getItem "chatSessionId";
  match truthy storedSessionId with
  | None =>
      newSessionId ← uuidv4;
      setItem "chatSessionId" newSessionId;;
      mret newSessionId
  | Some stored => mret stored
  end.

Definition chat_url : string := "http://localhost:5000/api/chat".

(** The message of line 28. *)
Definition userMessage (input : string) : Message :=
  mkMessage "user" [mkPart input].

(** The message of line 48. *)
Definition apology : Message :=
  mkMessage "model" [mkPart "I'm sorry, I couldn't process that. Please try again."].

(** [sendMessage] from the [await] on (lines 34 to 61), given how the
    promise settled.  The two [console] calls write no state and are left
    out. *)
Definition sendMessage_resume (p : settlement) : M World unit :=
  try_finally
    (try_catch
       (res ← await p;
        setSessionId (res_sessionId res);;
        setMessages (res_history res))
       (fun error =>
          setMessagesWith (fun prevMessages : list Message => prevMessages ++ [apology]);;
          invalidated ← eval (invalidation_signal error);
          if invalidated : bool then
            newId ← uuidv4;
            setItem "chatSessionId" newId;;
            setSessionId newId;;
            setMessages []
          else mret tt))
    (setIsLoading false).

(** What a call of the async function has done when control comes back to
    the caller: it ran to its end, or it waits at the [await] with the rest of
    its body. *)
Inductive Async : Type :=
| Returned
| Suspended (resume : settlement -> M World unit).

(** [sendMessage] up to the [await] (lines 25 to 37).  [input], [isLoading]
    and [sessionId] are constants of the render [c] whose closure is called,
    not the cells: the guard reads the flag of that render, and the request
    carries its identifier and its [input], not the cleared cell.  The setters
    work on the cells, the updater function of [setMessages] on the history
    that the cell holds when the update is applied. *)
Definition sendMessage_start (c : Chatbot) : M World unit :=
  setMessagesWith (fun prevMessages : list Message => prevMessages ++ [userMessage (input c)]);;
  setInput "";;
  setIsLoading true;;
  axios_post chat_url (mkRequest (sessionId c) (input c)).

Definition sendMessage_in (c : Chatbot) (w : World) : Async * World :=
  if String.eqb (trim (input c)) "" || isLoading c then (Returned, w)
  else (Suspended sendMessage_resume, snd (sendMessage_start c w)).

(** The call from a render that shows the cells as they are. *)
Definition sendMessage (w : World) : Async * World := sendMessage_in (ui w) w.

(** ** The page as a transition system

    [suspended] holds the calls of [sendMessage] that wait at their [await],
    oldest first.  In [System] every handler is called from a render that
    shows the cells as they are, as when the page is rendered again after each
    event; [Tab], further down, keeps the render on screen apart from the
    cells.  The input field and the button carry [disabled={isLoading}]; the
    transitions are defined on every state, which only adds behaviours. *)
Record System : Type := mkSystem {
  world : World;
  suspended : list (settlement -> M World unit)
}.

Inductive event : Type :=
| Change (value : string)   (* onChange of the input field *)
| KeyPress (key : string)   (* onKeyPress of the input field *)
| Click                     (* onClick of the button *)
| Settle (p : settlement).  (* the oldest pending promise settles *)

Definition call_sendMessage (s : System) : System :=
  match sendMessage (world s) with
  | (Returned, w) => mkSystem w (suspended s)
  | (Suspended k, w) => mkSystem w (suspended s ++ [k])
  end.

Definition handleKeyPress (key : string) (s : System) : System :=
  if String.eqb key "Enter" then call_sendMessage s else s.

Definition fire (ev : event) (s : System) : option System :=
  match ev with
  | Change value => Some (mkSystem (snd (setInput value (world s))) (suspended s))
  | KeyPress key => Some (handleKeyPress key s)
  | Click => Some (call_sendMessage s)
  | Settle p =>
      match suspended s with
      | [] => None
      | k :: rest => Some (mkSystem (snd (k p (world s))) rest)
      end
  end.

Fixpoint run (evs : list event) (s : System) : option System :=
  match evs with
  | [] => Some s
  | ev :: rest => s' ← fire ev s; run rest s'
  end.

(** First render: the four initializers. *)
Definition mount (e : Env) : option System :=
  match initSession e with
  | (Normal id, e') => Some (mkSystem (mkWorld (mkChatbot [] "" id false) e') [])
  | (Throw _, _) => None
  end.

(** ** Vocabulary of the statements *)

(** What the next call of [uuidv4] returns. *)
Definition next_uuid (e : Env) : string := uuid_src e (uuid_next e).

(** The value under the storage key of the component. *)
Definition stored_id (e : Env) : option string := sessionStorage e !! "chatSessionId".

(** The failure carries a response whose body has [sessionId] equal to
    [null]. *)
Definition null_sessionId (error : thrown) : Prop :=
  exists r, error_response error = Some r /\ get_prop (data r) "sessionId" = Normal JNull.

(** The failure carries a response whose body reads [undefined] at
    [sessionId]: the field is not there. *)
Definition no_sessionId_field (error : thrown) : Prop :=
  exists r, error_response error = Some r /\ get_prop (data r) "sessionId" = Normal JUndefined.

(** The optimistic update of a call: the call waits at its [await], one
    message of role user with the typed text is at the end of the history,
    the loading flag is up, the input is cleared and the request is out. *)
Definition optimistic_update (w : World) : Prop :=
  exists k w1,
    sendMessage w = (Suspended k, w1) /\
    messages (ui w1) = messages (ui w) ++ [userMessage (input (ui w))] /\
    role (userMessage (input (ui w))) = "user" /\
    isLoading (ui w1) = true /\
    input (ui w1) = "" /\
    posted (env w1) = posted (env w) ++ [(chat_url, mkRequest (sessionId (ui w)) (input (ui w)))].

(** The identifier a fulfilled reply brings is not the empty string. *)
Definition brings_id (ev : event) : Prop :=
  match ev with
  | Settle (Fulfilled res) => res_sessionId res <> ""
  | _ => True
  end.

(** At most one call waits, and exactly when the loading flag is up; every
    waiting call is the tail of [sendMessage]. *)
Definition one_in_flight (s : System) : Prop :=
  suspended s = if isLoading (ui (world s)) then [sendMessage_resume] else [].

(** The invariant of the page: the identifier held is not the empty string,
    [uuidv4] never returns the empty string, and [one_in_flight]. *)
Definition well_formed (s : System) : Prop :=
  sessionId (ui (world s)) <> "" /\
  (forall k, uuid_src (env (world s)) k <> "") /\
  one_in_flight s.

(** The state in which a waiting call [k] leaves the page once its promise
    has settled as [p], and how the call itself completes. *)
Definition outcome (k : settlement -> M World unit) (p : settlement) (w : World) : World :=
  snd (k p w).

Definition completion (k : settlement -> M World unit) (p : settlement) (w : World) : Completion unit :=
  fst (k p w).

(** The state a call leaves at its [await]. *)
Definition at_await (w : World) : World :=
  mkWorld
    (mkChatbot (messages (ui w) ++ [userMessage (input (ui w))]) "" (sessionId (ui w)) true)
    (mkEnv (sessionStorage (env w))
           (posted (env w) ++ [(chat_url, mkRequest (sessionId (ui w)) (input (ui w)))])
           (uuid_src (env w)) (uuid_next (env w))).

(** The state after a failure that does not rotate the session. *)
Definition apologised (w : World) : World :=
  mkWorld
    (mkChatbot (messages (ui w) ++ [apology]) (input (ui w)) (sessionId (ui w)) false)
    (env w).

(** The state after a failure that rotates the session. *)
Definition rotated (w : World) : World :=
  mkWorld
    (mkChatbot [] (input (ui w)) (next_uuid (env w)) false)
    (mkEnv (<["chatSessionId" := next_uuid (env w)]> (sessionStorage (env w)))
           (posted (env w)) (uuid_src (env w)) (S (uuid_next (env w)))).

(** ** Sample data *)

Definition sample_src (k : nat) : string :=
  match k with
  | 0 => "1b9d6bcd-bbfd-4b2d-9b5d-ab8dfbbd4bed"
  | _ => "9c5b94b1-35ad-49bb-b118-8e8fc24abf80"
  end.

(** A fresh tab: nothing stored, nothing sent. *)
Definition fresh_tab : Env := mkEnv ∅ [] sample_src 0.

(** The page after its first render in a fresh tab, with "hi" typed. *)
Definition typed_hi : World :=
  mkWorld
    (mkChatbot [] "hi" (sample_src 0) false)
    (mkEnv {[ "chatSessionId" := sample_src 0 ]} [] sample_src 1).

(** The same page while an earlier request is still out. *)
Definition typed_hi_loading : World :=
  mkWorld
    (mkChatbot [userMessage "hello"] "hi" (sample_src 0) true)
    (mkEnv {[ "chatSessionId" := sample_src 0 ]}
           [(chat_url, mkRequest (sample_src 0) "hello")] sample_src 1).

Definition two_messages : list Message :=
  [userMessage "hi"; mkMessage "model" [mkPart "Hello! How can I help?"]].

(** A reply of the service that moves the conversation to session "s1". *)
Definition reply_s1 : ChatReply := mkChatReply "s1" two_messages.

(** A body of a failed response that invalidates the session. *)
Definition invalidating_body : jsval :=
  JObj [("error", JStr "Session expired"); ("sessionId", JNull)].

(** A body of a failed response without a [sessionId] field. *)
Definition plain_error_body : jsval := JObj [("error", JStr "Internal error")].

(** ** What the component draws (lines 70 to 115)

    The element tree without its static parts (title, placeholder, style
    tables): the conditional children, one bubble for each message, and the
    properties of the two controls that depend on the state. *)

(** [styles.userMessage] or [styles.botMessage], spread over the bubble. *)
Inductive Side : Type := UserSide | BotSide.

(** One [div] of the message list: its side and the texts of its [span]s. *)
Record Bubble : Type := mkBubble { side : Side; spans : list string }.

Record Page : Type := mkPage {
  welcome : bool;          (* the "Start a conversation!" line is drawn *)
  bubbles : list Bubble;
  typing : bool;           (* the "Bot is typing..." line is drawn *)
  field_value : string;    (* value of the input field *)
  field_disabled : bool;   (* disabled of the input field *)
  button_disabled : bool   (* disabled of the button *)
}.

(** Lines 80 to 90: [msg.role === 'user' ? styles.userMessage : styles.botMessage]
    and [msg.parts.map(part => <span>{part.text}</span>)]. *)
Definition render_message (msg : Message) : Bubble :=
  mkBubble (if String.eqb (role msg) "user" then UserSide else BotSide)
           (map text (parts msg)).

Definition render (c : Chatbot) : Page :=
  mkPage (Nat.eqb (List.length (messages c)) 0)
         (map render_message (messages c))
         (isLoading c)
         (input c)
         (isLoading c)
         (isLoading c).

(** ** Vocabulary of the further statements *)

(** The identifiers that the fulfilled replies of a sequence bring. *)
Fixpoint adopted (evs : list event) : list string :=
  match evs with
  | [] => []
  | Settle (Fulfilled res) :: rest => res_sessionId res :: adopted rest
  | _ :: rest => adopted rest
  end.

(** The number of promises that settle in a sequence. *)
Fixpoint settled (evs : list event) : nat :=
  match evs with
  | [] => 0
  | Settle _ :: rest => S (settled rest)
  | _ :: rest => settled rest
  end.

(** The storage holds the identifier that the component holds. *)
Definition in_sync (w : World) : Prop :=
  stored_id (env w) = Some (sessionId (ui w)).

(** The failure carries a response whose body is [null] or [undefined]. *)
Definition no_body (p : settlement) : Prop :=
  exists r, p = Rejected (AxiosError (Some r)) /\ (data r = JNull \/ data r = JUndefined).

(** A logged request went to the chat endpoint with a text that is not
    blank. *)
Definition chat_request (x : string * Request) : Prop :=
  fst x = chat_url /\ blank (req_message (snd x)) = false.

(** The page with another text in its input field. *)
Definition with_input (value : string) (w : World) : World :=
  mkWorld (mkChatbot (messages (ui w)) value (sessionId (ui w)) (isLoading (ui w))) (env w).

(** A page on which " hi " is typed, blanks included. *)
Definition typed_padded : World := with_input " hi " typed_hi.

(** ** The page with the render on screen

    A handler is a closure of the render that created it.  [shown] is the
    render whose handlers are attached to the controls; [Rerender] replaces it
    by a render of the cells as they are.  Until then a handler can be called
    again, and every call reads the same constants.  The calls that wait have
    the same rest of body, which reads no constant of its render, so it does
    not matter which of them a settlement resumes: [Settle] takes the oldest. *)
Record Tab : Type := mkTab { page : System; shown : Chatbot }.

Inductive happening : Type :=
| Handle (ev : event)
| Rerender.

Definition call_from (c : Chatbot) (s : System) : System :=
  match sendMessage_in c (world s) with
  | (Returned, w) => mkSystem w (suspended s)
  | (Suspended k, w) => mkSystem w (suspended s ++ [k])
  end.

Definition act (h : happening) (t : Tab) : option Tab :=
  match h with
  | Rerender => Some (mkTab (page t) (ui (world (page t))))
  | Handle (Change value) =>
      Some (mkTab (mkSystem (snd (setInput value (world (page t)))) (suspended (page t)))
                  (shown t))
  | Handle (KeyPress key) =>
      Some (mkTab (if String.eqb key "Enter" then call_from (shown t) (page t) else page t)
                  (shown t))
  | Handle Click => Some (mkTab (call_from (shown t) (page t)) (shown t))
  | Handle (Settle p) =>
      match suspended (page t) with
      | [] => None
      | k :: rest => Some (mkTab (mkSystem (snd (k p (world (page t)))) rest) (shown t))
      end
  end.

Fixpoint play (hs : list happening) (t : Tab) : option Tab :=
  match hs with
  | [] => Some t
  | h :: rest => t' ← act h t; play rest t'
  end.

(** First render, shown. *)
Definition open_tab (e : Env) : option Tab :=
  s ← mount e; Some (mkTab s (ui (world s))).

(** The number of promises that settle in a sequence. *)
Fixpoint settlements (hs : list happening) : nat :=
  match hs with
  | [] => 0
  | Handle (Settle _) :: rest => S (settlements rest)
  | _ :: rest => settlements rest
  end.

(** The state that a call from the render [c] leaves at its [await]. *)
Definition awaiting_from (c : Chatbot) (w : World) : World :=
  mkWorld
    (mkChatbot (messages (ui w) ++ [userMessage (input c)]) "" (sessionId (ui w)) true)
    (mkEnv (sessionStorage (env w))
           (posted (env w) ++ [(chat_url, mkRequest (sessionId c) (input c))])
           (uuid_src (env w)) (uuid_next (env w))).

(** Every call that waits is the tail of [sendMessage]. *)
Definition all_tails (s : System) : Prop :=
  Forall (fun k => k = sendMessage_resume) (suspended s).

(** ** Identifiers and their source *)






(** ** The model of [trim] *)

Lemma trimEnd_empty (s : string) : trimEnd s = "" <-> blank s = true.
Proof.
  induction s as [|c rest IH]; simpl.
  - tauto.
  - destruct (trimEnd rest) eqn:E.
    + assert (Hb : blank rest = true) by (apply IH; reflexivity).
      rewrite Hb, andb_true_r. destruct (isWhiteSpace c); split; congruence.
    + assert (Hb : blank rest = false).
      { destruct (blank rest); [|reflexivity].
        destruct IH as [_ IH]. discriminate (IH eq_refl). }
      rewrite Hb, andb_false_r. split; discriminate.
Qed.

Lemma blank_trimStart (s : string) : blank (trimStart s) = blank s.
Proof.
  induction s as [|c rest IH]; simpl; [reflexivity|].
  destruct (isWhiteSpace c) eqn:E; simpl.
  - exact IH.
  - rewrite E. reflexivity.
Qed.

(** [input.trim() === ''] holds exactly for the strings made of white space
    only. *)
Lemma trim_empty_iff_blank (s : string) : trim s = "" <-> blank s = true.
Proof. unfold trim. rewrite trimEnd_empty, blank_trimStart. tauto. Qed.

Example trim_inner_space : trim (String "009" "  a b  ") = "a b".
Proof. reflexivity. Qed.

(** ** Reading the error body *)

Lemma strict_null_true (v : jsval) : strict_null v = true <-> v = JNull.
Proof. destruct v; simpl; split; congruence. Qed.

Lemma invalidation_signal_true (error : thrown) :
  invalidation_signal error = Normal true <-> null_sessionId error.
Proof.
  unfold invalidation_signal, null_sessionId. split.
  - destruct (error_response error) as [r|]; [|discriminate].
    destruct (get_prop (data r) "sessionId") as [v|e] eqn:E; [|discriminate].
    intros H. exists r. split; [reflexivity|].
    rewrite E. f_equal. apply strict_null_true. congruence.
  - intros (r & -> & ->). reflexivity.
Qed.

Lemma invalidation_signal_cases (error : thrown) :
  invalidation_signal error = Normal true \/
  invalidation_signal error = Normal false \/
  invalidation_signal error = Throw TypeError.
Proof.
  unfold invalidation_signal.
  destruct (error_response error) as [[body]|]; [|auto].
  destruct body; simpl; auto.
  destruct (own_property fields "sessionId"); simpl; auto.
Qed.

(** ** The two halves of [sendMessage] *)

Lemma sendMessage_guard (w : World) :
  trim (input (ui w)) = "" \/ isLoading (ui w) = true ->
  sendMessage w = (Returned, w).
Proof.
  intros H. unfold sendMessage, sendMessage_in.
  destruct H as [-> | ->]; simpl; [reflexivity|].
  rewrite orb_true_r. reflexivity.
Qed.

Lemma sendMessage_guard_inv (w w1 : World) :
  sendMessage w = (Returned, w1) -> w1 = w.
Proof.
  unfold sendMessage, sendMessage_in.
  destruct (String.eqb (trim (input (ui w))) "" || isLoading (ui w)); [|discriminate].
  intros [= <-]. reflexivity.
Qed.

Lemma sendMessage_passes (w : World) :
  trim (input (ui w)) <> "" -> isLoading (ui w) = false ->
  sendMessage w = (Suspended sendMessage_resume, at_await w).
Proof.
  intros Ht Hl. unfold sendMessage, sendMessage_in. rewrite Hl, orb_false_r.
  destruct (String.eqb_spec (trim (input (ui w))) "") as [E|_]; [contradiction|].
  reflexivity.
Qed.

Lemma sendMessage_suspended_inv (w w1 : World) (k : settlement -> M World unit) :
  sendMessage w = (Suspended k, w1) ->
  trim (input (ui w)) <> "" /\ isLoading (ui w) = false /\
  k = sendMessage_resume /\ w1 = at_await w.
Proof.
  unfold sendMessage, sendMessage_in.
  destruct (String.eqb_spec (trim (input (ui w))) "") as [E|NE]; simpl; [discriminate|].
  destruct (isLoading (ui w)) eqn:L; [discriminate|].
  intros H. injection H as <- <-. auto.
Qed.

Lemma resume_fulfilled (w : World) (res : ChatReply) :
  sendMessage_resume (Fulfilled res) w =
  (Normal tt, mkWorld (mkChatbot (res_history res) (input (ui w)) (res_sessionId res) false) (env w)).
Proof. reflexivity. Qed.

Lemma resume_rotates (w : World) (error : thrown) :
  invalidation_signal error = Normal true ->
  sendMessage_resume (Rejected error) w = (Normal tt, rotated w).
Proof.
  intros H. unfold sendMessage_resume, try_finally, try_catch, mbind, M_bind, eval.
  simpl. rewrite H. reflexivity.
Qed.

Lemma resume_apologises (w : World) (error : thrown) :
  invalidation_signal error <> Normal true ->
  snd (sendMessage_resume (Rejected error) w) = apologised w.
Proof.
  intros H. unfold sendMessage_resume, try_finally, try_catch, mbind, M_bind, eval.
  simpl. destruct (invalidation_signal_cases error) as [E|[E|E]];
    [contradiction | rewrite E; reflexivity | rewrite E; reflexivity].
Qed.

Lemma outcome_apologised (w : World) (error : thrown) :
  ~ null_sessionId error ->
  outcome sendMessage_resume (Rejected error) w = apologised w.
Proof.
  intros H. apply resume_apologises. rewrite invalidation_signal_true. exact H.
Qed.

Lemma outcome_rotated (w : World) (error : thrown) :
  null_sessionId error ->
  outcome sendMessage_resume (Rejected error) w = rotated w.
Proof.
  intros H. unfold outcome. rewrite resume_rotates; [reflexivity|].
  apply invalidation_signal_true, H.
Qed.

(** The [finally] block: whatever the settlement, the flag is down. *)
Lemma outcome_loading (w : World) (p : settlement) :
  isLoading (ui (outcome sendMessage_resume p w)) = false.
Proof.
  destruct p as [res | error]; [reflexivity|].
  destruct (invalidation_signal_cases error) as [E|[E|E]].
  - rewrite outcome_rotated; [reflexivity|]. apply invalidation_signal_true, E.
  - rewrite outcome_apologised; [reflexivity|].
    rewrite <- invalidation_signal_true. congruence.
  - rewrite outcome_apologised; [reflexivity|].
    rewrite <- invalidation_signal_true. congruence.
Qed.

(** [===] is strict: the falsy values other than [null] do not signal an
    invalidation. *)
Lemma falsy_ids_do_not_invalidate (v : jsval) :
  v ∈ [JUndefined; JBool false; JNum 0; JStr ""] ->
  invalidation_signal (AxiosError (Some (mkResponse (JObj [("sessionId", v)])))) = Normal false.
Proof.
  intros H. repeat (apply elem_of_cons in H as [-> | H]; [reflexivity|]).
  inversion H.
Qed.

(** ** The success path *)

(** C1. When the request of a call of [sendMessage] is fulfilled, the call
    completes normally, the session identifier is the one of the reply and the
    history is the history of the reply, nothing else: the user message that
    the call had appended is not kept beside it. *)
Theorem success_adopts_reply (w w1 : World) (k : settlement -> M World unit) (res : ChatReply) :
  sendMessage w = (Suspended k, w1) ->
  completion k (Fulfilled res) w1 = Normal tt /\
  sessionId (ui (outcome k (Fulfilled res) w1)) = res_sessionId res /\
  messages (ui (outcome k (Fulfilled res) w1)) = res_history res.
Proof.
  intros H. apply sendMessage_suspended_inv in H as (_ & _ & -> & ->).
  unfold completion, outcome. rewrite resume_fulfilled. auto.
Qed.

Lemma success_adopts_reply_witness :
  sendMessage typed_hi = (Suspended sendMessage_resume, at_await typed_hi) /\
  completion sendMessage_resume (Fulfilled reply_s1) (at_await typed_hi) = Normal tt /\
  sessionId (ui (outcome sendMessage_resume (Fulfilled reply_s1) (at_await typed_hi))) = "s1" /\
  messages (ui (outcome sendMessage_resume (Fulfilled reply_s1) (at_await typed_hi))) = two_messages.
Proof.
  split; [reflexivity|].
  exact (success_adopts_reply typed_hi (at_await typed_hi) sendMessage_resume reply_s1 eq_refl).
Defined.

(** ** The failure paths *)






(** C4. When the request fails and the failure does not carry a body whose
    [sessionId] is [null], the session identifier and the storage are what
    they were before the call, and the history is the history before the call,
    then the user message of the call, then one message of role model with the
    fixed text of the component. *)
Theorem failure_keeps_session (w w1 : World) (k : settlement -> M World unit) (error : thrown) :
  sendMessage w = (Suspended k, w1) ->
  ~ null_sessionId error ->
  sessionId (ui (outcome k (Rejected error) w1)) = sessionId (ui w) /\
  sessionStorage (env (outcome k (Rejected error) w1)) = sessionStorage (env w) /\
  messages (ui w1) = messages (ui w) ++ [userMessage (input (ui w))] /\
  messages (ui (outcome k (Rejected error) w1)) = messages (ui w1) ++ [apology] /\
  role apology = "model".
Proof.
  intros H Hplain.
  apply sendMessage_suspended_inv in H as (_ & _ & -> & ->).
  rewrite (outcome_apologised _ _ Hplain). repeat split.
Qed.

Lemma failure_keeps_session_witness :
  sessionId (ui (outcome sendMessage_resume
     (Rejected (AxiosError (Some (mkResponse plain_error_body)))) (at_await typed_hi)))
    = sample_src 0 /\
  sessionStorage (env (outcome sendMessage_resume
     (Rejected (AxiosError (Some (mkResponse plain_error_body)))) (at_await typed_hi)))
    = {[ "chatSessionId" := sample_src 0 ]} /\
  messages (ui (at_await typed_hi)) = [] ++ [userMessage "hi"] /\
  messages (ui (outcome sendMessage_resume
     (Rejected (AxiosError (Some (mkResponse plain_error_body)))) (at_await typed_hi)))
    = messages (ui (at_await typed_hi)) ++ [apology] /\
  role apology = "model".
Proof.
  apply (failure_keeps_session typed_hi (at_await typed_hi) sendMessage_resume
           (AxiosError (Some (mkResponse plain_error_body)))).
  - reflexivity.
  - intros (r & Hr & Hnull). injection Hr as <-. discriminate Hnull.
Defined.

(** C10. The test for an invalidation is [=== null].  A failure without a
    response, and a failure whose body has no [sessionId] field, leave the
    session identifier and the storage as they were and append the one
    message of the component; and whenever the completion of a failed request
    changes the session identifier or the storage, or draws an identifier from
    [uuidv4], the body of the failure had [sessionId] equal to [null]. *)
Theorem rotation_only_on_null (w w1 : World) (k : settlement -> M World unit) (error : thrown) :
  sendMessage w = (Suspended k, w1) ->
  (error_response error = None \/ no_sessionId_field error ->
     sessionId (ui (outcome k (Rejected error) w1)) = sessionId (ui w1) /\
     sessionStorage (env (outcome k (Rejected error) w1)) = sessionStorage (env w1) /\
     messages (ui (outcome k (Rejected error) w1)) = messages (ui w1) ++ [apology]) /\
  (sessionId (ui (outcome k (Rejected error) w1)) <> sessionId (ui w1) \/
   sessionStorage (env (outcome k (Rejected error) w1)) <> sessionStorage (env w1) \/
   uuid_next (env (outcome k (Rejected error) w1)) <> uuid_next (env w1) ->
     null_sessionId error).
Proof.
  intros H. apply sendMessage_suspended_inv in H as (_ & _ & -> & ->).
  assert (Hcases : null_sessionId error \/ ~ null_sessionId error).
  { destruct (invalidation_signal_cases error) as [E|[E|E]].
    - left. apply invalidation_signal_true, E.
    - right. rewrite <- invalidation_signal_true. congruence.
    - right. rewrite <- invalidation_signal_true. congruence. }
  split.
  - intros Hno.
    assert (Hplain : ~ null_sessionId error).
    { intros (r & Hr & Hnull). destruct Hno as [Hnone | (r' & Hr' & Hundef)]; congruence. }
    rewrite (outcome_apologised _ _ Hplain). repeat split.
  - intros Hchanged. destruct Hcases as [Hnull | Hplain]; [exact Hnull|].
    rewrite (outcome_apologised _ _ Hplain) in Hchanged.
    destruct Hchanged as [Hc | [Hc | Hc]]; contradiction Hc; reflexivity.
Qed.

Lemma rotation_only_on_null_witness :
  (error_response (AxiosError None) = None \/ no_sessionId_field (AxiosError None) ->
     sessionId (ui (outcome sendMessage_resume (Rejected (AxiosError None)) (at_await typed_hi)))
       = sessionId (ui (at_await typed_hi)) /\
     sessionStorage (env (outcome sendMessage_resume (Rejected (AxiosError None)) (at_await typed_hi)))
       = sessionStorage (env (at_await typed_hi)) /\
     messages (ui (outcome sendMessage_resume (Rejected (AxiosError None)) (at_await typed_hi)))
       = messages (ui (at_await typed_hi)) ++ [apology]) /\
  (sessionId (ui (outcome sendMessage_resume (Rejected (AxiosError None)) (at_await typed_hi)))
     <> sessionId (ui (at_await typed_hi)) \/
   sessionStorage (env (outcome sendMessage_resume (Rejected (AxiosError None)) (at_await typed_hi)))
     <> sessionStorage (env (at_await typed_hi)) \/
   uuid_next (env (outcome sendMessage_resume (Rejected (AxiosError None)) (at_await typed_hi)))
     <> uuid_next (env (at_await typed_hi)) ->
     null_sessionId (AxiosError None)).
Proof.
  exact (rotation_only_on_null typed_hi (at_await typed_hi) sendMessage_resume
           (AxiosError None) eq_refl).
Defined.

(** ** The guard and the loading flag *)

(** C5. While the loading flag is up, a call of [sendMessage] returns at
    its first line: the page, the storage and the list of requests sent are
    the ones before the call, and no call is added to the waiting ones; so
    are a click on the button and any key press. *)
Theorem sendMessage_noop_while_loading (s : System) :
  isLoading (ui (world s)) = true ->
  sendMessage (world s) = (Returned, world s) /\
  fire Click s = Some s /\
  (forall key, fire (KeyPress key) s = Some s).
Proof.
  intros Hl.
  assert (Hret : sendMessage (world s) = (Returned, world s))
    by (apply sendMessage_guard; right; exact Hl).
  assert (Hcall : call_sendMessage s = s)
    by (unfold call_sendMessage; rewrite Hret; destruct s; reflexivity).
  repeat split.
  - exact Hret.
  - simpl. rewrite Hcall. reflexivity.
  - intros key. simpl. unfold handleKeyPress.
    destruct (String.eqb key "Enter"); [rewrite Hcall|]; reflexivity.
Qed.

Lemma sendMessage_noop_while_loading_witness :
  sendMessage typed_hi_loading = (Returned, typed_hi_loading) /\
  fire Click (mkSystem typed_hi_loading [sendMessage_resume])
    = Some (mkSystem typed_hi_loading [sendMessage_resume]) /\
  (forall key, fire (KeyPress key) (mkSystem typed_hi_loading [sendMessage_resume])
    = Some (mkSystem typed_hi_loading [sendMessage_resume])).
Proof.
  exact (sendMessage_noop_while_loading (mkSystem typed_hi_loading [sendMessage_resume]) eq_refl).
Defined.

(** C6. A call of [sendMessage] that passed its guard and sent its request
    leaves the loading flag down when it completes, however the promise
    settled and whether the call completes normally or by a throw. *)
Theorem loading_cleared_on_completion (w w1 : World) (k : settlement -> M World unit) (p : settlement) :
  sendMessage w = (Suspended k, w1) ->
  isLoading (ui (outcome k p w1)) = false.
Proof.
  intros H. apply sendMessage_suspended_inv in H as (_ & _ & -> & ->).
  apply outcome_loading.
Qed.

Lemma loading_cleared_on_completion_witness :
  completion sendMessage_resume (Rejected (AxiosError (Some (mkResponse JNull)))) (at_await typed_hi)
    = Throw TypeError /\
  isLoading (ui (outcome sendMessage_resume
     (Rejected (AxiosError (Some (mkResponse JNull)))) (at_await typed_hi))) = false.
Proof.
  split; [reflexivity|].
  exact (loading_cleared_on_completion typed_hi (at_await typed_hi) sendMessage_resume
           (Rejected (AxiosError (Some (mkResponse JNull)))) eq_refl).
Defined.

(** C7, as stated, fails while a request is out: with "hi" typed and the
    loading flag up, the text is not empty after trimming and yet the call
    returns at its guard, so nothing is appended. *)
Lemma optimistic_update_fails_while_loading :
  trim (input (ui typed_hi_loading)) <> "" /\
  sendMessage typed_hi_loading = (Returned, typed_hi_loading) /\
  ~ optimistic_update typed_hi_loading.
Proof.
  split; [discriminate|]. split; [reflexivity|].
  intros (k & w1 & H & _). discriminate H.
Qed.

(** C7, amended. With a text that is not empty after trimming and the
    loading flag down, a call of [sendMessage] reaches its [await] having
    appended one message of role user that carries the text, raised the
    loading flag, cleared the input and sent the request with the identifier
    and the text. *)
Theorem sendMessage_optimistic_update (w : World) :
  trim (input (ui w)) <> "" ->
  isLoading (ui w) = false ->
  optimistic_update w.
Proof.
  intros Ht Hl. exists sendMessage_resume, (at_await w).
  split; [apply sendMessage_passes; assumption|]. repeat split.
Qed.

Lemma sendMessage_optimistic_update_witness : optimistic_update typed_hi.
Proof.
  apply (sendMessage_optimistic_update typed_hi); [discriminate | reflexivity].
Defined.

(** ** Storage *)

Lemma success_leaves_storage (w : World) (res : ChatReply) :
  env (outcome sendMessage_resume (Fulfilled res) w) = env w.
Proof. reflexivity. Qed.

(** C3. In a fresh tab the first render stores the generated identifier;
    "hi" is sent and the reply names session "s1".  The component then holds
    "s1", the storage still holds the generated identifier. *)
Theorem rotation_on_success_not_stored :
  (s ← mount fresh_tab; run [Change "hi"; Click; Settle (Fulfilled reply_s1)] s) ≫=
    (fun s => Some (sessionId (ui (world s)), stored_id (env (world s))))
  = Some ("s1", Some "1b9d6bcd-bbfd-4b2d-9b5d-ab8dfbbd4bed").
Proof. vm_compute. reflexivity. Qed.

(** ** Initialization *)

Lemma initSession_stored (e : Env) (stored : string) :
  stored_id e = Some stored -> stored <> "" ->
  initSession e = (Normal stored, e).
Proof.
  intros Hs Hne. unfold initSession, mbind, M_bind, getItem, gets; simpl.
  unfold stored_id in Hs. rewrite Hs. simpl.
  destruct (String.eqb_spec stored "") as [E|_]; [contradiction|]. reflexivity.
Qed.

Lemma initSession_generates (e : Env) :
  truthy (stored_id e) = None ->
  initSession e =
  (Normal (next_uuid e),
   mkEnv (<["chatSessionId" := next_uuid e]> (sessionStorage e)) (posted e) (uuid_src e) (S (uuid_next e))).
Proof.
  intros Hs. unfold initSession, mbind, M_bind, getItem, gets; simpl.
  unfold stored_id in Hs. rewrite Hs. reflexivity.
Qed.

Lemma truthy_Some (v : option string) (s : string) :
  truthy v = Some s <-> v = Some s /\ s <> "".
Proof.
  destruct v as [t|]; simpl.
  - destruct (String.eqb_spec t "") as [E|NE]; split.
    + discriminate.
    + intros [[= ->] H]. contradiction.
    + intros [= ->]. auto.
    + intros [[= ->] _]. reflexivity.
  - split; [discriminate | intros [H _]; discriminate].
Qed.

(** C9. The initializer run a second time on the storage the first run
    left returns the identifier of the first run and writes nothing; the
    identifier is stored and is not empty; and on empty storage the first run
    returns the value of [uuidv4] and leaves it as the only entry.  That
    [uuidv4] does not return the empty string is [uuid]'s, taken as a
    hypothesis. *)
Theorem initSession_idempotent (e : Env) :
  next_uuid e <> "" ->
  exists id e1,
    initSession e = (Normal id, e1) /\
    initSession e1 = (Normal id, e1) /\
    id <> "" /\
    stored_id e1 = Some id /\
    (sessionStorage e = ∅ ->
       id = next_uuid e /\ sessionStorage e1 = {[ "chatSessionId" := id ]}).
Proof.
  intros Huuid. destruct (truthy (stored_id e)) as [stored|] eqn:T.
  - apply truthy_Some in T as [Hs Hne].
    exists stored, e. rewrite (initSession_stored _ _ Hs Hne).
    split; [reflexivity|]. split; [reflexivity|]. split; [exact Hne|].
    split; [exact Hs|].
    intros Hempty. unfold stored_id in Hs. rewrite Hempty, lookup_empty in Hs.
    discriminate.
  - eexists _, _. split; [apply initSession_generates, T|].
    split; [|split; [exact Huuid|split]].
    + apply initSession_stored; [|exact Huuid].
      unfold stored_id; simpl. apply lookup_insert_eq.
    + unfold stored_id; simpl. apply lookup_insert_eq.
    + intros Hempty. split; [reflexivity|]. simpl. rewrite Hempty.
      apply insert_empty.
Qed.

Lemma initSession_idempotent_witness :
  exists id e1,
    initSession fresh_tab = (Normal id, e1) /\
    initSession e1 = (Normal id, e1) /\
    id <> "" /\
    stored_id e1 = Some id /\
    (sessionStorage fresh_tab = ∅ ->
       id = next_uuid fresh_tab /\ sessionStorage e1 = {[ "chatSessionId" := id ]}).
Proof.
  apply (initSession_idempotent fresh_tab). discriminate.
Defined.

(** ** The invariant of the page *)

Lemma mount_total (e : Env) : exists s, mount e = Some s.
Proof.
  unfold mount. destruct (truthy (stored_id e)) as [stored|] eqn:T.
  - apply truthy_Some in T as [Hs Hne].
    rewrite (initSession_stored _ _ Hs Hne). eauto.
  - rewrite (initSession_generates _ T). eauto.
Qed.

Lemma mount_well_formed (e : Env) (s : System) :
  (forall k, uuid_src e k <> "") ->
  mount e = Some s -> well_formed s.
Proof.
  intros Huuid. unfold mount. destruct (truthy (stored_id e)) as [stored|] eqn:T.
  - apply truthy_Some in T as [Hs Hne].
    rewrite (initSession_stored _ _ Hs Hne). intros [= <-].
    split; [exact Hne|]. split; [exact Huuid | reflexivity].
  - rewrite (initSession_generates _ T). intros [= <-].
    split; [apply Huuid|]. split; [exact Huuid | reflexivity].
Qed.

Lemma call_sendMessage_one_in_flight (s : System) :
  one_in_flight s -> one_in_flight (call_sendMessage s).
Proof.
  intros Hone. unfold call_sendMessage.
  destruct (sendMessage (world s)) as [[|k] w1] eqn:E.
  - apply sendMessage_guard_inv in E as ->. exact Hone.
  - apply sendMessage_suspended_inv in E as (_ & Hl & -> & ->).
    unfold one_in_flight in *. rewrite Hl in Hone. simpl. rewrite Hone. reflexivity.
Qed.

(** A promise that settles belongs to the one waiting call, which is the
    tail of [sendMessage]; afterwards none waits. *)
Lemma settle_inv (s s' : System) (p : settlement) :
  one_in_flight s -> fire (Settle p) s = Some s' ->
  isLoading (ui (world s)) = true /\
  s' = mkSystem (outcome sendMessage_resume p (world s)) [].
Proof.
  unfold one_in_flight. intros Hone. simpl.
  destruct (isLoading (ui (world s))); rewrite Hone; [|discriminate].
  intros [= <-]. auto.
Qed.

Lemma fire_one_in_flight (ev : event) (s s' : System) :
  one_in_flight s -> fire ev s = Some s' -> one_in_flight s'.
Proof.
  intros Hone. destruct ev as [value | key | | p].
  - intros [= <-]. exact Hone.
  - intros [= <-]. unfold handleKeyPress.
    destruct (String.eqb key "Enter"); [apply call_sendMessage_one_in_flight|]; exact Hone.
  - intros [= <-]. apply call_sendMessage_one_in_flight, Hone.
  - intros F. apply (settle_inv _ _ _ Hone) in F as [_ ->].
    unfold one_in_flight; simpl. rewrite outcome_loading. reflexivity.
Qed.

(** In [System], where every handler is called from a render of the cells as
    they are, at most one call waits.  [Tab] has no such bound. *)
Lemma run_one_in_flight (evs : list event) (s s' : System) :
  one_in_flight s -> run evs s = Some s' -> one_in_flight s'.
Proof.
  revert s. induction evs as [|ev rest IH]; intros s Hone; simpl.
  - intros [= <-]. exact Hone.
  - destruct (fire ev s) as [s1|] eqn:F; simpl; [|discriminate].
    apply IH. exact (fire_one_in_flight _ _ _ Hone F).
Qed.

Lemma call_sendMessage_keeps_session (s : System) :
  sessionId (ui (world (call_sendMessage s))) = sessionId (ui (world s)) /\
  uuid_src (env (world (call_sendMessage s))) = uuid_src (env (world s)).
Proof.
  unfold call_sendMessage.
  destruct (sendMessage (world s)) as [[|k] w1] eqn:E.
  - apply sendMessage_guard_inv in E as ->. auto.
  - apply sendMessage_suspended_inv in E as (_ & _ & _ & ->). auto.
Qed.

Lemma call_sendMessage_well_formed (s : System) :
  well_formed s -> well_formed (call_sendMessage s).
Proof.
  intros (Hid & Huuid & Hone).
  destruct (call_sendMessage_keeps_session s) as [Es Eu].
  split; [rewrite Es; exact Hid|].
  split; [rewrite Eu; exact Huuid | apply call_sendMessage_one_in_flight, Hone].
Qed.

Lemma settle_well_formed (w : World) (p : settlement) :
  brings_id (Settle p) ->
  sessionId (ui w) <> "" ->
  (forall k, uuid_src (env w) k <> "") ->
  well_formed (mkSystem (outcome sendMessage_resume p w) []).
Proof.
  intros Hp Hid Huuid.
  split; [|split]; [| |unfold one_in_flight; simpl; rewrite outcome_loading; reflexivity].
  - destruct p as [res | error]; [exact Hp|].
    destruct (invalidation_signal_cases error) as [E|[E|E]].
    + rewrite outcome_rotated by (apply invalidation_signal_true, E). apply Huuid.
    + rewrite outcome_apologised by (rewrite <- invalidation_signal_true; congruence).
      exact Hid.
    + rewrite outcome_apologised by (rewrite <- invalidation_signal_true; congruence).
      exact Hid.
  - destruct p as [res | error]; [exact Huuid|].
    destruct (invalidation_signal_cases error) as [E|[E|E]].
    + rewrite outcome_rotated by (apply invalidation_signal_true, E). exact Huuid.
    + rewrite outcome_apologised by (rewrite <- invalidation_signal_true; congruence).
      exact Huuid.
    + rewrite outcome_apologised by (rewrite <- invalidation_signal_true; congruence).
      exact Huuid.
Qed.

Lemma fire_well_formed (ev : event) (s s' : System) :
  brings_id ev -> well_formed s -> fire ev s = Some s' -> well_formed s'.
Proof.
  intros Hev Hwf. destruct ev as [value | key | | p].
  - intros [= <-]. destruct Hwf as (Hid & Huuid & Hone).
    split; [exact Hid|]. split; [exact Huuid | exact Hone].
  - intros [= <-]. unfold handleKeyPress.
    destruct (String.eqb key "Enter"); [apply call_sendMessage_well_formed|]; exact Hwf.
  - intros [= <-]. apply call_sendMessage_well_formed, Hwf.
  - destruct Hwf as (Hid & Huuid & Hone).
    intros F. apply (settle_inv _ _ _ Hone) in F as [_ ->].
    apply settle_well_formed; assumption.
Qed.

Lemma run_well_formed (evs : list event) (s s' : System) :
  Forall brings_id evs -> well_formed s -> run evs s = Some s' -> well_formed s'.
Proof.
  intros Hevs. revert s. induction Hevs as [|ev rest Hev _ IH]; intros s Hwf; simpl.
  - intros [= <-]. exact Hwf.
  - destruct (fire ev s) as [s1|] eqn:F; simpl; [|discriminate].
    apply IH. exact (fire_well_formed _ _ _ Hev Hwf F).
Qed.

(** The scenario of a first exchange: empty storage, first render, "hi"
    sent, a reply with session "s1" and two messages. *)
Example first_exchange :
  (s ← mount fresh_tab; run [Change "hi"; Click; Settle (Fulfilled reply_s1)] s) ≫=
    (fun s => Some (ui (world s), List.length (suspended s)))
  = Some (mkChatbot two_messages "" "s1" false, 0).
Proof. vm_compute. reflexivity. Qed.

(** C8, as stated, fails on the success path: in a fresh tab the first
    render holds a generated identifier; "hi" is sent and the reply carries
    the empty string as [sessionId]; the component then holds the empty
    string. *)
Lemma adopts_empty_identifier :
  mount fresh_tab ≫= (fun s => Some (sessionId (ui (world s))))
    = Some "1b9d6bcd-bbfd-4b2d-9b5d-ab8dfbbd4bed" /\
  (s ← mount fresh_tab;
   run [Change "hi"; Click; Settle (Fulfilled (mkChatReply "" two_messages))] s) ≫=
    (fun s => Some (sessionId (ui (world s))))
    = Some "".
Proof. split; vm_compute; reflexivity. Qed.

(** C8, amended. The first render succeeds, and after any sequence of
    changes of the input, key presses, clicks and settled requests in which
    every fulfilled reply carries an identifier other than the empty string,
    the session identifier is not the empty string.  That [uuidv4] does not
    return the empty string is [uuid]'s, taken as a hypothesis. *)
Theorem sessionId_never_empty (e : Env) (evs : list event) :
  (forall k, uuid_src e k <> "") ->
  Forall brings_id evs ->
  (exists s0, mount e = Some s0) /\
  (forall s, (s0 ← mount e; run evs s0) = Some s -> sessionId (ui (world s)) <> "").
Proof.
  intros Huuid Hevs. split; [apply mount_total|].
  intros s. destruct (mount e) as [s0|] eqn:Hm; simpl; [|discriminate].
  intros Hrun.
  exact (proj1 (run_well_formed _ _ _ Hevs (mount_well_formed _ _ Huuid Hm) Hrun)).
Qed.

Lemma sessionId_never_empty_witness :
  (exists s0, mount fresh_tab = Some s0) /\
  (forall s,
     (s0 ← mount fresh_tab;
      run [Change "hi"; Click; Settle (Fulfilled reply_s1); Change "more"; KeyPress "Enter";
           Settle (Rejected (AxiosError (Some (mkResponse invalidating_body))))] s0) = Some s ->
     sessionId (ui (world s)) <> "").
Proof.
  apply (sessionId_never_empty fresh_tab).
  - intros [|k]; discriminate.
  - repeat constructor; discriminate.
Defined.

(** ** The guard, exactly *)

Lemma trim_nonempty_iff_blank (s : string) : trim s <> "" <-> blank s = false.
Proof.
  rewrite trim_empty_iff_blank. destruct (blank s); split; congruence.
Qed.

Lemma sendMessage_returned_why (w w1 : World) :
  sendMessage w = (Returned, w1) ->
  blank (input (ui w)) = true \/ isLoading (ui w) = true.
Proof.
  unfold sendMessage, sendMessage_in.
  destruct (String.eqb_spec (trim (input (ui w))) "") as [E|NE]; simpl.
  - intros _. left. apply trim_empty_iff_blank, E.
  - destruct (isLoading (ui w)); [auto | discriminate].
Qed.

(** X1. A call of [sendMessage] returns at its first line exactly when the
    input consists of white space only (the empty input included) or the
    loading flag is up; it sends its request and waits exactly when the input
    has a character that is not white space and the flag is down. *)
Theorem guard_exact (w : World) :
  (sendMessage w = (Returned, w) <->
     blank (input (ui w)) = true \/ isLoading (ui w) = true) /\
  (sendMessage w = (Suspended sendMessage_resume, at_await w) <->
     blank (input (ui w)) = false /\ isLoading (ui w) = false).
Proof.
  destruct (blank (input (ui w))) eqn:B; destruct (isLoading (ui w)) eqn:L.
  1-3: assert (R : sendMessage w = (Returned, w))
    by (apply sendMessage_guard; rewrite trim_empty_iff_blank; tauto).
  1-3: rewrite R; split; split; try tauto; try discriminate; intros [? ?]; discriminate.
  assert (R : sendMessage w = (Suspended sendMessage_resume, at_await w))
    by (apply sendMessage_passes; [apply trim_nonempty_iff_blank|]; assumption).
  rewrite R. split; split; try tauto; try discriminate.
  intros [?|?]; discriminate.
Qed.

Lemma call_sendMessage_cases (s : System) :
  one_in_flight s ->
  (call_sendMessage s = s /\
     (blank (input (ui (world s))) = true \/ isLoading (ui (world s)) = true)) \/
  (call_sendMessage s = mkSystem (at_await (world s)) [sendMessage_resume] /\
     blank (input (ui (world s))) = false /\ isLoading (ui (world s)) = false).
Proof.
  intros Hone. unfold call_sendMessage.
  destruct (sendMessage (world s)) as [[|k] w1] eqn:E.
  - pose proof (sendMessage_guard_inv _ _ E) as ->. left.
    split; [destruct s; reflexivity|]. exact (sendMessage_returned_why _ _ E).
  - apply sendMessage_suspended_inv in E as (Ht & Hl & -> & ->). right.
    unfold one_in_flight in Hone. rewrite Hl in Hone. rewrite Hone.
    split; [reflexivity|]. split; [apply trim_nonempty_iff_blank, Ht | exact Hl].
Qed.

(** The four ways in which an event moves the page. *)
Lemma fire_cases (ev : event) (s s' : System) :
  one_in_flight s -> fire ev s = Some s' ->
  ((ev = Click \/ exists key, ev = KeyPress key) /\ s' = s) \/
  (exists value, ev = Change value /\
     s' = mkSystem (with_input value (world s)) (suspended s)) \/
  ((ev = Click \/ ev = KeyPress "Enter") /\
     blank (input (ui (world s))) = false /\ isLoading (ui (world s)) = false /\
     s' = mkSystem (at_await (world s)) [sendMessage_resume]) \/
  (exists p, ev = Settle p /\ isLoading (ui (world s)) = true /\
     s' = mkSystem (outcome sendMessage_resume p (world s)) []).
Proof.
  intros Hone. destruct ev as [value | key | | p].
  - intros [= <-]. right; left. exists value. auto.
  - simpl. unfold handleKeyPress.
    destruct (String.eqb_spec key "Enter") as [-> | NE]; intros [= <-]; [|eauto].
    destruct (call_sendMessage_cases s Hone) as [[-> _] | (-> & B & L)]; [eauto|].
    right; right; left. auto.
  - intros [= <-].
    destruct (call_sendMessage_cases s Hone) as [[-> _] | (-> & B & L)]; [auto|].
    right; right; left. auto.
  - intros F. apply (settle_inv _ _ _ Hone) in F as [L ->].
    right; right; right. exists p. auto.
Qed.

(** The three states in which a settled promise leaves the page. *)
Lemma outcome_cases (w : World) (p : settlement) :
  (exists res, p = Fulfilled res /\
     outcome sendMessage_resume p w =
     mkWorld (mkChatbot (res_history res) (input (ui w)) (res_sessionId res) false) (env w)) \/
  (exists error, p = Rejected error /\ null_sessionId error /\
     outcome sendMessage_resume p w = rotated w) \/
  (exists error, p = Rejected error /\ ~ null_sessionId error /\
     outcome sendMessage_resume p w = apologised w).
Proof.
  destruct p as [res | error].
  - left. exists res. split; reflexivity.
  - right. destruct (invalidation_signal_cases error) as [E|[E|E]].
    + left. exists error. apply invalidation_signal_true in E.
      split; [reflexivity|]. split; [exact E | apply outcome_rotated, E].
    + right. exists error.
      assert (N : ~ null_sessionId error)
        by (rewrite <- invalidation_signal_true; congruence).
      split; [reflexivity|]. split; [exact N | apply outcome_apologised, N].
    + right. exists error.
      assert (N : ~ null_sessionId error)
        by (rewrite <- invalidation_signal_true; congruence).
      split; [reflexivity|]. split; [exact N | apply outcome_apologised, N].
Qed.

Lemma mount_shape (e : Env) (s : System) :
  mount e = Some s ->
  exists id e1, initSession e = (Normal id, e1) /\
    s = mkSystem (mkWorld (mkChatbot [] "" id false) e1) [].
Proof.
  unfold mount. destruct (initSession e) as [[id|err] e1]; [|discriminate].
  intros [= <-]. eauto.
Qed.

Lemma mount_one_in_flight (e : Env) (s : System) :
  mount e = Some s -> one_in_flight s.
Proof. intros H. apply mount_shape in H as (id & e1 & _ & ->). reflexivity. Qed.

Lemma initSession_cases (e : Env) :
  (exists stored, stored_id e = Some stored /\ stored <> "" /\
     initSession e = (Normal stored, e)) \/
  ((stored_id e = None \/ stored_id e = Some "") /\
     initSession e =
     (Normal (next_uuid e),
      mkEnv (<["chatSessionId" := next_uuid e]> (sessionStorage e)) (posted e)
            (uuid_src e) (S (uuid_next e)))).
Proof.
  destruct (truthy (stored_id e)) as [stored|] eqn:T.
  - apply truthy_Some in T as [Hs Hne]. left. exists stored.
    split; [exact Hs|]. split; [exact Hne | apply initSession_stored; assumption].
  - right. split; [|apply initSession_generates, T].
    destruct (stored_id e) as [stored|]; [|auto]. right. simpl in T.
    destruct (String.eqb_spec stored ""); [congruence | discriminate].
Qed.

(** ** How a call completes *)

Lemma completion_rejected (w : World) (error : thrown) :
  completion sendMessage_resume (Rejected error) w =
  match invalidation_signal error with
  | Normal _ => Normal tt
  | Throw e => Throw e
  end.
Proof.
  unfold completion, sendMessage_resume, try_finally, try_catch, mbind, M_bind, eval.
  simpl. destruct (invalidation_signal error) as [[|]|e]; reflexivity.
Qed.

Lemma signal_throws_iff (error : thrown) :
  invalidation_signal error = Throw TypeError <-> no_body (Rejected error).
Proof.
  unfold no_body. split.
  - destruct error as [[[body]|]|]; try discriminate.
    intros H. exists (mkResponse body). split; [reflexivity|].
    destruct body; simpl in *; auto; try discriminate.
  - intros ([body] & [= ->] & [E | E]); simpl in E; subst body; reflexivity.
Qed.

(** X2. A call that waits for its request completes by a [TypeError], which
    nothing catches, exactly when the request failed with a response whose
    body is [null] or [undefined]: the catch block reads [sessionId] of the
    body unguarded.  In every other case, fulfilled or failed, the call
    completes normally. *)
Theorem throws_exactly_without_body (w : World) (p : settlement) :
  (completion sendMessage_resume p w = Throw TypeError <-> no_body p) /\
  (completion sendMessage_resume p w = Normal tt <-> ~ no_body p).
Proof.
  destruct p as [res | error].
  - assert (N : ~ no_body (Fulfilled res)) by (intros (r & H & _); discriminate).
    unfold completion. rewrite resume_fulfilled. simpl.
    split; split; try tauto; try discriminate.
  - rewrite completion_rejected, <- signal_throws_iff.
    destruct (invalidation_signal_cases error) as [E|[E|E]]; rewrite E;
      split; split; congruence.
Qed.

(** ** The keyboard *)

(** X3. A key press leaves the page as it is exactly when the key is not
    [Enter], or the input is blank, or the loading flag is up; and [Enter]
    does what a click on the button does. *)
Theorem keypress_exact (s : System) (key : string) :
  (fire (KeyPress key) s = Some s <->
     key <> "Enter" \/ blank (input (ui (world s))) = true \/
     isLoading (ui (world s)) = true) /\
  fire (KeyPress "Enter") s = fire Click s.
Proof.
  split; [|reflexivity]. simpl. unfold handleKeyPress, call_sendMessage.
  destruct (String.eqb_spec key "Enter") as [-> | NE]; [|tauto].
  destruct (sendMessage (world s)) as [[|k] w1] eqn:E.
  - pose proof (sendMessage_returned_why _ _ E) as Hwhy.
    apply sendMessage_guard_inv in E as ->. destruct s; simpl in *. tauto.
  - apply sendMessage_suspended_inv in E as (Ht & Hl & -> & ->).
    apply trim_nonempty_iff_blank in Ht. split.
    + intros [= Hs]. apply (f_equal (fun s => isLoading (ui (world s)))) in Hs.
      simpl in Hs. congruence.
    + intros [H | [H | H]]; congruence.
Qed.

(** ** The initializer at its edges *)

(** X4. The initializer draws an identifier from [uuidv4] exactly when the
    key is missing or holds the empty string; it then returns the drawn value
    and stores it, overwriting the empty string.  Any other stored value, be
    it white space, is returned as it is, and nothing is written or drawn. *)
Theorem initSession_edges (e : Env) :
  exists id e1,
    initSession e = (Normal id, e1) /\
    (uuid_next e1 <> uuid_next e <-> stored_id e = None \/ stored_id e = Some "") /\
    (stored_id e = None \/ stored_id e = Some "" ->
       id = next_uuid e /\ stored_id e1 = Some id /\ uuid_next e1 = S (uuid_next e)) /\
    (forall stored, stored_id e = Some stored -> stored <> "" -> id = stored /\ e1 = e).
Proof.
  destruct (initSession_cases e) as [(stored & Hs & Hne & ->) | (Habs & ->)];
    eexists _, _; (split; [reflexivity|]); simpl.
  - split; [|split].
    + split; [congruence|]. intros [H | H]; congruence.
    + intros [H | H]; congruence.
    + intros stored' Hs' _. split; congruence.
  - split; [|split].
    + split; [auto | intros _; apply Nat.neq_succ_diag_l].
    + intros _. repeat split. unfold stored_id; simpl. apply lookup_insert_eq.
    + intros stored Hs Hne. destruct Habs as [H | H]; congruence.
Qed.

(** ** Reload and the next request *)

(** X5. A reload after an invalidation resumes the new session: on the
    storage that the rotation left, the first render holds the rotated
    identifier, with an empty history, and draws no further identifier.
    ([uuidv4] is assumed not to return the empty string.) *)
Theorem reload_after_invalidation (w : World) (error : thrown) :
  null_sessionId error ->
  next_uuid (env w) <> "" ->
  mount (env (outcome sendMessage_resume (Rejected error) w)) =
  Some (mkSystem
          (mkWorld (mkChatbot [] "" (next_uuid (env w)) false)
                   (env (outcome sendMessage_resume (Rejected error) w)))
          []).
Proof.
  intros Hnull Hne. rewrite (outcome_rotated _ _ Hnull). unfold mount.
  rewrite (initSession_stored _ (next_uuid (env w))); [reflexivity| |exact Hne].
  unfold stored_id, rotated; simpl. apply lookup_insert_eq.
Qed.

Lemma reload_after_invalidation_witness :
  mount (env (outcome sendMessage_resume
     (Rejected (AxiosError (Some (mkResponse invalidating_body)))) (at_await typed_hi))) =
  Some (mkSystem
          (mkWorld (mkChatbot [] "" (next_uuid (env (at_await typed_hi))) false)
                   (env (outcome sendMessage_resume
     (Rejected (AxiosError (Some (mkResponse invalidating_body)))) (at_await typed_hi))))
          []).
Proof.
  apply (reload_after_invalidation (at_await typed_hi)
           (AxiosError (Some (mkResponse invalidating_body)))).
  - exists (mkResponse invalidating_body). split; reflexivity.
  - discriminate.
Defined.

(** ** The requests *)

Lemma outcome_posted (w : World) (p : settlement) :
  posted (env (outcome sendMessage_resume p w)) = posted (env w).
Proof.
  destruct (outcome_cases w p) as [(res & _ & ->) | [(err & _ & _ & ->) | (err & _ & _ & ->)]];
    reflexivity.
Qed.

Lemma fire_requests (ev : event) (s s' : System) :
  one_in_flight s -> fire ev s = Some s' ->
  exists new,
    posted (env (world s')) = posted (env (world s)) ++ new /\
    Forall chat_request new /\
    List.length new + List.length (suspended s) = List.length (suspended s') + settled [ev].
Proof.
  intros Hone F. pose proof Hone as Hsusp. unfold one_in_flight in Hsusp.
  destruct (fire_cases _ _ _ Hone F)
    as [[Hev ->] | [(value & -> & ->) | [(Hev & B & L & ->) | (p & -> & L & ->)]]].
  - exists []. rewrite app_nil_r. split; [reflexivity|]. split; [constructor|].
    destruct Hev as [-> | [key ->]]; simpl; lia.
  - exists []. rewrite app_nil_r. split; [reflexivity|]. split; [constructor|].
    simpl; lia.
  - exists [(chat_url, mkRequest (sessionId (ui (world s))) (input (ui (world s))))].
    split; [reflexivity|]. split.
    + constructor; [|constructor]. split; [reflexivity | exact B].
    + rewrite L in Hsusp. rewrite Hsusp. destruct Hev as [-> | ->]; reflexivity.
  - exists []. rewrite app_nil_r. split; [apply outcome_posted|]. split; [constructor|].
    rewrite L in Hsusp. rewrite Hsusp. reflexivity.
Qed.

Lemma settled_cons (ev : event) (evs : list event) :
  settled (ev :: evs) = settled [ev] + settled evs.
Proof. destruct ev; reflexivity. Qed.

Lemma run_requests (evs : list event) (s s' : System) :
  one_in_flight s -> run evs s = Some s' ->
  exists new,
    posted (env (world s')) = posted (env (world s)) ++ new /\
    Forall chat_request new /\
    List.length new + List.length (suspended s) = List.length (suspended s') + settled evs.
Proof.
  revert s. induction evs as [|ev rest IH]; intros s Hone; simpl run.
  - intros [= <-]. exists []. rewrite app_nil_r. split; [reflexivity|].
    split; [constructor | simpl; lia].
  - intros R. destruct (fire ev s) as [s1|] eqn:F; simpl in R; [|discriminate].
    destruct (fire_requests _ _ _ Hone F) as (new1 & E1 & F1 & C1).
    destruct (IH s1 (fire_one_in_flight _ _ _ Hone F) R) as (new2 & E2 & F2 & C2).
    exists (new1 ++ new2). rewrite E2, E1, app_assoc.
    split; [reflexivity|]. split; [apply Forall_app; auto|].
    rewrite length_app, settled_cons. lia.
Qed.

(** X7. Whatever the user and the network do, the list of requests sent
    only grows at its end, and every request added goes to the chat endpoint
    with a text that is not blank: no empty message is ever posted. *)
Theorem requests_only_appended (evs : list event) (s s' : System) :
  one_in_flight s ->
  run evs s = Some s' ->
  exists new,
    posted (env (world s')) = posted (env (world s)) ++ new /\
    Forall chat_request new.
Proof.
  intros Hone R. destruct (run_requests _ _ _ Hone R) as (new & E & F & _). eauto.
Qed.

Lemma requests_only_appended_witness :
  exists new,
    posted (env (world (mkSystem (at_await typed_padded) [sendMessage_resume]))) =
      posted (env (world (mkSystem typed_padded []))) ++ new /\
    Forall chat_request new.
Proof.
  apply (requests_only_appended [Change "   "; Click; Change " hi "; KeyPress "Enter"; Click]
           (mkSystem typed_padded []) (mkSystem (at_await typed_padded) [sendMessage_resume]));
    reflexivity.
Defined.

Lemma mount_posted (e : Env) (s : System) :
  mount e = Some s ->
  posted (env (world s)) = posted e /\ suspended s = [].
Proof.
  intros H. apply mount_shape in H as (id & e1 & I & ->).
  destruct (initSession_cases e) as [(stored & _ & _ & E) | (_ & E)];
    rewrite E in I; injection I as <- <-; auto.
Qed.

(** ** The storage *)

(** An event leaves the storage alone or writes the one key. *)
Lemma fire_storage (ev : event) (s s' : System) :
  one_in_flight s -> fire ev s = Some s' ->
  sessionStorage (env (world s')) = sessionStorage (env (world s)) \/
  exists value,
    sessionStorage (env (world s')) = <["chatSessionId" := value]> (sessionStorage (env (world s))).
Proof.
  intros Hone F.
  destruct (fire_cases _ _ _ Hone F)
    as [[_ ->] | [(value & _ & ->) | [(_ & _ & _ & ->) | (p & _ & _ & ->)]]]; auto.
  destruct (outcome_cases (world s) p)
    as [(res & _ & ->) | [(err & _ & _ & ->) | (err & _ & _ & ->)]]; simpl; eauto.
Qed.

Lemma run_storage (evs : list event) (s s' : System) (key : string) :
  one_in_flight s -> run evs s = Some s' ->
  (key <> "chatSessionId" ->
     sessionStorage (env (world s')) !! key = sessionStorage (env (world s)) !! key) /\
  (is_Some (stored_id (env (world s))) -> is_Some (stored_id (env (world s')))).
Proof.
  revert s. induction evs as [|ev rest IH]; intros s Hone; simpl.
  - intros [= <-]. auto.
  - destruct (fire ev s) as [s1|] eqn:F; simpl; [|discriminate]. intros R.
    destruct (IH s1 (fire_one_in_flight _ _ _ Hone F) R) as [IH1 IH2].
    destruct (fire_storage _ _ _ Hone F) as [E | [value E]]; split.
    + intros NE. rewrite (IH1 NE), E. reflexivity.
    + intros S. apply IH2. unfold stored_id. rewrite E. exact S.
    + intros NE. rewrite (IH1 NE), E. apply lookup_insert_ne. congruence.
    + intros _. apply IH2. unfold stored_id. rewrite E, lookup_insert_eq. eauto.
Qed.

Lemma mount_storage (e : Env) (s : System) (key : string) :
  mount e = Some s ->
  (key <> "chatSessionId" ->
     sessionStorage (env (world s)) !! key = sessionStorage e !! key) /\
  in_sync (world s).
Proof.
  intros H. apply mount_shape in H as (id & e1 & I & ->).
  destruct (initSession_cases e) as [(stored & Hs & _ & E) | (_ & E)];
    rewrite E in I; injection I as <- <-; unfold in_sync, stored_id; simpl.
  - auto.
  - split; [|apply lookup_insert_eq]. intros NE. apply lookup_insert_ne. congruence.
Qed.

(** X9. The component owns one key of the storage and nothing else: from
    the first render on, whatever happens, every other key holds what it held
    before the page was loaded, and [chatSessionId] holds a value (the
    component never removes it). *)
Theorem storage_frame (e : Env) (evs : list event) (s : System) (key : string) :
  (s0 ← mount e; run evs s0) = Some s ->
  key <> "chatSessionId" ->
  sessionStorage (env (world s)) !! key = sessionStorage e !! key /\
  is_Some (stored_id (env (world s))).
Proof.
  destruct (mount e) as [s0|] eqn:Hm; simpl; [|discriminate]. intros R NE.
  pose proof (mount_one_in_flight _ _ Hm) as Hone.
  destruct (mount_storage _ _ key Hm) as [M1 M2].
  destruct (run_storage _ _ _ key Hone R) as [R1 R2]. split.
  - rewrite (R1 NE). exact (M1 NE).
  - apply R2. unfold in_sync in M2. rewrite M2. eauto.
Qed.

Lemma storage_frame_witness :
  sessionStorage (env (world (mkSystem (rotated (at_await
      (mkWorld (mkChatbot [] "hi" "0b1c" false)
               (mkEnv {[ "theme" := "dark"; "chatSessionId" := "0b1c" ]} [] sample_src 0))))
      []))) !! "theme"
    = sessionStorage (mkEnv {[ "theme" := "dark"; "chatSessionId" := "0b1c" ]} [] sample_src 0)
        !! "theme" /\
  is_Some (stored_id (env (world (mkSystem (rotated (at_await
      (mkWorld (mkChatbot [] "hi" "0b1c" false)
               (mkEnv {[ "theme" := "dark"; "chatSessionId" := "0b1c" ]} [] sample_src 0))))
      [])))).
Proof.
  apply (storage_frame
           (mkEnv {[ "theme" := "dark"; "chatSessionId" := "0b1c" ]} [] sample_src 0)
           [Change "hi"; Click;
            Settle (Rejected (AxiosError (Some (mkResponse invalidating_body))))]).
  - vm_compute. reflexivity.
  - discriminate.
Defined.

Lemma adopted_cons (ev : event) (evs : list event) :
  adopted (ev :: evs) = adopted [ev] ++ adopted evs.
Proof. destruct ev as [| | |[|]]; reflexivity. Qed.

Lemma fire_sync (ev : event) (s s' : System) (ids : list string) :
  one_in_flight s -> fire ev s = Some s' ->
  in_sync (world s) \/ sessionId (ui (world s)) ∈ ids ->
  in_sync (world s') \/ sessionId (ui (world s')) ∈ ids ++ adopted [ev].
Proof.
  intros Hone F H.
  assert (Hstay : in_sync (world s) \/ sessionId (ui (world s)) ∈ ids ++ adopted [ev]).
  { destruct H as [H | H]; [auto|]. right. apply elem_of_app. auto. }
  destruct (fire_cases _ _ _ Hone F)
    as [[_ ->] | [(value & _ & ->) | [(_ & _ & _ & ->) | (p & -> & _ & ->)]]];
    try exact Hstay.
  destruct (outcome_cases (world s) p)
    as [(res & -> & ->) | [(err & -> & _ & ->) | (err & -> & _ & ->)]]; simpl.
  - right. apply elem_of_app. right. apply list_elem_of_here.
  - left. unfold in_sync, stored_id; simpl. apply lookup_insert_eq.
  - exact Hstay.
Qed.

Lemma run_sync (evs : list event) (s s' : System) (ids : list string) :
  one_in_flight s -> run evs s = Some s' ->
  in_sync (world s) \/ sessionId (ui (world s)) ∈ ids ->
  in_sync (world s') \/ sessionId (ui (world s')) ∈ ids ++ adopted evs.
Proof.
  revert s ids. induction evs as [|ev rest IH]; intros s ids Hone R H.
  - injection R as <-. rewrite app_nil_r. exact H.
  - simpl in R. destruct (fire ev s) as [s1|] eqn:F; simpl in R; [|discriminate].
    rewrite adopted_cons, app_assoc.
    apply (IH s1 _ (fire_one_in_flight _ _ _ Hone F) R).
    exact (fire_sync _ _ _ ids Hone F H).
Qed.

(** X10. From the first render on, the storage holds the identifier that
    the component holds, unless that identifier is one that a fulfilled reply
    brought: adopting the identifier of a reply is the only way in which the
    two part. *)
Theorem sync_unless_adopted (e : Env) (evs : list event) (s : System) :
  (s0 ← mount e; run evs s0) = Some s ->
  in_sync (world s) \/ sessionId (ui (world s)) ∈ adopted evs.
Proof.
  destruct (mount e) as [s0|] eqn:Hm; simpl; [|discriminate]. intros R.
  pose proof (mount_one_in_flight _ _ Hm) as Hone.
  destruct (mount_storage _ _ "" Hm) as [_ M].
  exact (run_sync evs s0 s [] Hone R (or_introl M)).
Qed.

Lemma sync_unless_adopted_witness :
  in_sync (world (mkSystem (rotated (at_await typed_hi)) [])) \/
  sessionId (ui (world (mkSystem (rotated (at_await typed_hi)) []))) ∈
    adopted [Change "hi"; Click;
             Settle (Rejected (AxiosError (Some (mkResponse invalidating_body))))].
Proof.
  apply (sync_unless_adopted fresh_tab
           [Change "hi"; Click;
            Settle (Rejected (AxiosError (Some (mkResponse invalidating_body))))]).
  vm_compute. reflexivity.
Defined.

(** ** The page on screen *)

Lemma render_snoc (c : Chatbot) (extra : list Message) :
  extra <> [] ->
  render (mkChatbot (messages c ++ extra) (input c) (sessionId c) (isLoading c)) =
  mkPage false (bubbles (render c) ++ map render_message extra)
         (isLoading c) (input c) (isLoading c) (isLoading c).
Proof.
  intros NE. unfold render; simpl. rewrite map_app, length_app.
  destruct extra as [|m extra]; [contradiction|]. simpl.
  rewrite Nat.add_succ_r. reflexivity.
Qed.

(** X12. What the user sees of a failed exchange.  While the request is
    out: the earlier bubbles, then the typed text (as typed) in a bubble on the
    user's side, the typing line, an empty and disabled input field.  After a
    failure that does not invalidate the session: the same bubbles, then the
    fixed text in a bubble on the bot's side, no typing line, the controls
    enabled again. *)
Theorem page_of_failed_exchange (w w1 : World) (k : settlement -> M World unit) (error : thrown) :
  sendMessage w = (Suspended k, w1) ->
  ~ null_sessionId error ->
  render (ui w1) =
    mkPage false (bubbles (render (ui w)) ++ [mkBubble UserSide [input (ui w)]])
           true "" true true /\
  render (ui (outcome k (Rejected error) w1)) =
    mkPage false
           (bubbles (render (ui w)) ++
              [mkBubble UserSide [input (ui w)];
               mkBubble BotSide ["I'm sorry, I couldn't process that. Please try again."]])
           false "" false false.
Proof.
  intros H Hplain. apply sendMessage_suspended_inv in H as (_ & _ & -> & ->).
  rewrite (outcome_apologised _ _ Hplain). split.
  - exact (render_snoc (mkChatbot (messages (ui w)) "" (sessionId (ui w)) true)
             [userMessage (input (ui w))] ltac:(discriminate)).
  - unfold apologised, at_await; simpl. rewrite <- app_assoc.
    exact (render_snoc (mkChatbot (messages (ui w)) "" (sessionId (ui w)) false)
             [userMessage (input (ui w)); apology] ltac:(discriminate)).
Qed.

Lemma page_of_failed_exchange_witness :
  render (ui (at_await typed_padded)) =
    mkPage false (bubbles (render (ui typed_padded)) ++ [mkBubble UserSide [" hi "]])
           true "" true true /\
  render (ui (outcome sendMessage_resume (Rejected (AxiosError None)) (at_await typed_padded))) =
    mkPage false
           (bubbles (render (ui typed_padded)) ++
              [mkBubble UserSide [" hi "];
               mkBubble BotSide ["I'm sorry, I couldn't process that. Please try again."]])
           false "" false false.
Proof.
  apply (page_of_failed_exchange typed_padded (at_await typed_padded) sendMessage_resume
           (AxiosError None)).
  - reflexivity.
  - intros (r & Hr & _). discriminate Hr.
Defined.

(** X13. When a failure invalidates the session the fixed text is never
    drawn: the page shows the welcome line and no bubble, as after the first
    render, with the controls enabled. *)
Theorem page_of_invalidation (w w1 : World) (k : settlement -> M World unit) (error : thrown) :
  sendMessage w = (Suspended k, w1) ->
  null_sessionId error ->
  render (ui (outcome k (Rejected error) w1)) = mkPage true [] false "" false false.
Proof.
  intros H Hnull. apply sendMessage_suspended_inv in H as (_ & _ & -> & ->).
  rewrite (outcome_rotated _ _ Hnull). reflexivity.
Qed.

Lemma page_of_invalidation_witness :
  render (ui (outcome sendMessage_resume
     (Rejected (AxiosError (Some (mkResponse invalidating_body)))) (at_await typed_hi)))
  = mkPage true [] false "" false false.
Proof.
  apply (page_of_invalidation typed_hi (at_await typed_hi) sendMessage_resume
           (AxiosError (Some (mkResponse invalidating_body)))).
  - reflexivity.
  - exists (mkResponse invalidating_body). split; reflexivity.
Defined.

(** ** Calls from the render on screen *)

Lemma sendMessage_in_cases (c : Chatbot) (w : World) :
  (sendMessage_in c w = (Returned, w) /\
     (blank (input c) = true \/ isLoading c = true)) \/
  (sendMessage_in c w = (Suspended sendMessage_resume, awaiting_from c w) /\
     blank (input c) = false /\ isLoading c = false).
Proof.
  unfold sendMessage_in.
  destruct (String.eqb_spec (trim (input c)) "") as [E|NE]; simpl.
  - left. split; [reflexivity|]. left. apply trim_empty_iff_blank, E.
  - destruct (isLoading c); [left; auto|].
    right. split; [reflexivity|]. split; [apply trim_nonempty_iff_blank, NE | reflexivity].
Qed.

Lemma call_from_cases (c : Chatbot) (s : System) :
  (call_from c s = s /\ (blank (input c) = true \/ isLoading c = true)) \/
  (call_from c s = mkSystem (awaiting_from c (world s)) (suspended s ++ [sendMessage_resume]) /\
     blank (input c) = false /\ isLoading c = false).
Proof.
  unfold call_from.
  destruct (sendMessage_in_cases c (world s)) as [[-> G] | (-> & B & L)].
  - left. split; [destruct s; reflexivity | exact G].
  - right. auto.
Qed.

(** [System] is [Tab] with a render before every event. *)
Lemma fire_is_act_on_current (ev : event) (s : System) :
  page <$> act (Handle ev) (mkTab s (ui (world s))) = fire ev s.
Proof.
  destruct ev as [value | key | | p]; simpl; try reflexivity.
  destruct (suspended s); reflexivity.
Qed.

(** The ways in which the page moves. *)
Lemma act_cases (h : happening) (t t' : Tab) :
  all_tails (page t) -> act h t = Some t' ->
  (settlements [h] = 0 /\ page t' = page t) \/
  (exists value, h = Handle (Change value) /\
     page t' = mkSystem (with_input value (world (page t))) (suspended (page t))) \/
  (settlements [h] = 0 /\ shown t' = shown t /\
     blank (input (shown t)) = false /\ isLoading (shown t) = false /\
     page t' = mkSystem (awaiting_from (shown t) (world (page t)))
                        (suspended (page t) ++ [sendMessage_resume])) \/
  (exists p rest, h = Handle (Settle p) /\
     suspended (page t) = sendMessage_resume :: rest /\
     page t' = mkSystem (outcome sendMessage_resume p (world (page t))) rest).
Proof.
  intros Htails. destruct h as [[value | key | | p] |]; simpl.
  - intros [= <-]. right; left. exists value. auto.
  - intros [= <-]. simpl. destruct (String.eqb key "Enter"); [|auto].
    destruct (call_from_cases (shown t) (page t)) as [[-> _] | (-> & B & L)]; [auto|].
    right; right; left. auto.
  - intros [= <-]. simpl.
    destruct (call_from_cases (shown t) (page t)) as [[-> _] | (-> & B & L)]; [auto|].
    right; right; left. auto.
  - unfold all_tails in Htails. destruct (suspended (page t)) as [|k rest] eqn:E; [discriminate|].
    intros [= <-]. apply Forall_cons in Htails as [-> _].
    right; right; right. exists p, rest. auto.
  - intros [= <-]. auto.
Qed.

Lemma act_all_tails (h : happening) (t t' : Tab) :
  all_tails (page t) -> act h t = Some t' -> all_tails (page t').
Proof.
  intros Htails A. pose proof Htails as H. unfold all_tails in H.
  destruct (act_cases _ _ _ Htails A)
    as [[_ ->] | [(value & _ & ->) | [(_ & _ & _ & _ & ->) | (p & rest & _ & E & ->)]]];
    unfold all_tails; simpl; try exact H.
  - apply Forall_app. split; [exact H | repeat constructor].
  - rewrite E in H. apply Forall_cons in H as [_ H]. exact H.
Qed.

Lemma open_tab_shape (e : Env) (t : Tab) :
  open_tab e = Some t ->
  mount e = Some (page t) /\ shown t = ui (world (page t)).
Proof.
  unfold open_tab. destruct (mount e) as [s|]; simpl; [|discriminate].
  intros [= <-]. auto.
Qed.

Lemma act_requests (h : happening) (t t' : Tab) :
  all_tails (page t) -> act h t = Some t' ->
  exists new,
    posted (env (world (page t'))) = posted (env (world (page t))) ++ new /\
    Forall chat_request new /\
    List.length new + List.length (suspended (page t)) =
      List.length (suspended (page t')) + settlements [h].
Proof.
  intros Htails A.
  destruct (act_cases _ _ _ Htails A)
    as [[Z ->] | [(value & -> & ->) | [(Z & _ & B & L & ->) | (p & rest & -> & E & ->)]]].
  - exists []. rewrite app_nil_r, Z. split; [reflexivity|]. split; [constructor | simpl; lia].
  - exists []. rewrite app_nil_r. split; [reflexivity|]. split; [constructor | simpl; lia].
  - exists [(chat_url, mkRequest (sessionId (shown t)) (input (shown t)))].
    split; [reflexivity|]. split.
    + constructor; [|constructor]. split; [reflexivity | exact B].
    + rewrite Z. simpl. rewrite length_app. simpl. lia.
  - exists []. rewrite app_nil_r. split; [apply outcome_posted|]. split; [constructor|].
    rewrite E. simpl. lia.
Qed.

Lemma settlements_cons (h : happening) (hs : list happening) :
  settlements (h :: hs) = settlements [h] + settlements hs.
Proof. destruct h as [[| | |]|]; reflexivity. Qed.

Lemma play_requests (hs : list happening) (t t' : Tab) :
  all_tails (page t) -> play hs t = Some t' ->
  exists new,
    posted (env (world (page t'))) = posted (env (world (page t))) ++ new /\
    Forall chat_request new /\
    List.length new + List.length (suspended (page t)) =
      List.length (suspended (page t')) + settlements hs.
Proof.
  revert t. induction hs as [|h rest IH]; intros t Htails R.
  - injection R as <-. exists []. rewrite app_nil_r. split; [reflexivity|].
    split; [constructor | simpl; lia].
  - simpl in R. destruct (act h t) as [t1|] eqn:A; simpl in R; [|discriminate].
    destruct (act_requests _ _ _ Htails A) as (new1 & E1 & F1 & C1).
    destruct (IH t1 (act_all_tails _ _ _ Htails A) R) as (new2 & E2 & F2 & C2).
    exists (new1 ++ new2). rewrite E2, E1, app_assoc.
    split; [reflexivity|]. split; [apply Forall_app; auto|].
    rewrite length_app, settlements_cons. lia.
Qed.

(** X8. Since the first render, however the renders, the events and the
    settlements interleave and however many calls wait, the requests sent are
    as many as the promises that have settled plus the calls that wait; each
    went to the chat endpoint with a text that is not blank. *)
Theorem requests_balance (e : Env) (hs : list happening) (t : Tab) :
  (t0 ← open_tab e; play hs t0) = Some t ->
  exists new,
    posted (env (world (page t))) = posted e ++ new /\
    Forall chat_request new /\
    List.length new = settlements hs + List.length (suspended (page t)).
Proof.
  destruct (open_tab e) as [t0|] eqn:Ho; simpl; [|discriminate]. intros R.
  apply open_tab_shape in Ho as [Hm _].
  destruct (mount_posted _ _ Hm) as [Hp Hs].
  assert (Htails : all_tails (page t0)) by (unfold all_tails; rewrite Hs; constructor).
  destruct (play_requests _ _ _ Htails R) as (new & E & F & C).
  exists new. rewrite E, Hp. split; [reflexivity|]. split; [exact F|].
  rewrite Hs in C. simpl in C. lia.
Qed.

Lemma requests_balance_witness :
  exists t new,
    (t0 ← open_tab fresh_tab;
     play [Handle (Change "hi"); Rerender; Handle Click; Handle Click;
           Handle (Settle (Fulfilled reply_s1))] t0) = Some t /\
    List.length (suspended (page t)) = 1 /\
    posted (env (world (page t))) = posted fresh_tab ++ new /\
    Forall chat_request new /\
    List.length new =
      settlements [Handle (Change "hi"); Rerender; Handle Click; Handle Click;
                   Handle (Settle (Fulfilled reply_s1))]
      + List.length (suspended (page t)).
Proof.
  eexists.
  destruct (requests_balance fresh_tab
              [Handle (Change "hi"); Rerender; Handle Click; Handle Click;
               Handle (Settle (Fulfilled reply_s1))] _ eq_refl) as (new & H).
  exists new. split; [reflexivity|]. split; [reflexivity | exact H].
Defined.

(** X14. The guard reads the flag of the render whose handler is called,
    not the cell.  From a render with a text that is not blank and the flag
    down, a second click before the page is rendered again passes the guard as
    the first did: two requests with the same body are sent, two calls wait,
    and the text is twice in the history.  Once the page is rendered again the
    click does nothing. *)
Theorem second_call_from_same_render (t : Tab) :
  blank (input (shown t)) = false ->
  isLoading (shown t) = false ->
  (exists t2,
     play [Handle Click; Handle Click] t = Some t2 /\
     posted (env (world (page t2))) =
       posted (env (world (page t))) ++
         [(chat_url, mkRequest (sessionId (shown t)) (input (shown t)));
          (chat_url, mkRequest (sessionId (shown t)) (input (shown t)))] /\
     suspended (page t2) = suspended (page t) ++ [sendMessage_resume; sendMessage_resume] /\
     messages (ui (world (page t2))) =
       messages (ui (world (page t))) ++
         [userMessage (input (shown t)); userMessage (input (shown t))]) /\
  play [Handle Click; Rerender; Handle Click] t = play [Handle Click; Rerender] t.
Proof.
  intros B L.
  assert (Hcall : forall s, call_from (shown t) s =
            mkSystem (awaiting_from (shown t) (world s)) (suspended s ++ [sendMessage_resume])).
  { intros s. destruct (call_from_cases (shown t) s) as [[_ [H | H]] | [H _]];
      [congruence | congruence | exact H]. }
  split.
  - eexists. simpl. rewrite !Hcall. simpl. split; [reflexivity|].
    split; [simpl; rewrite <- app_assoc; reflexivity|].
    split; [rewrite <- app_assoc; reflexivity|].
    simpl. rewrite <- app_assoc. reflexivity.
  - simpl. rewrite Hcall. simpl.
    match goal with
    | |- context [call_from ?c ?s] =>
        destruct (call_from_cases c s) as [[-> _] | (_ & _ & H)];
          [reflexivity | discriminate H]
    end.
Qed.

Lemma second_call_from_same_render_witness :
  (exists t2,
     play [Handle Click; Handle Click] (mkTab (mkSystem typed_hi []) (ui typed_hi)) = Some t2 /\
     posted (env (world (page t2))) =
       [] ++ [(chat_url, mkRequest (sample_src 0) "hi"); (chat_url, mkRequest (sample_src 0) "hi")] /\
     suspended (page t2) = [] ++ [sendMessage_resume; sendMessage_resume] /\
     messages (ui (world (page t2))) = [] ++ [userMessage "hi"; userMessage "hi"]) /\
  play [Handle Click; Rerender; Handle Click] (mkTab (mkSystem typed_hi []) (ui typed_hi))
    = play [Handle Click; Rerender] (mkTab (mkSystem typed_hi []) (ui typed_hi)).
Proof.
  apply (second_call_from_same_render (mkTab (mkSystem typed_hi []) (ui typed_hi)));
    reflexivity.
Defined.

(** In every state that the page reaches, every call that waits is the tail
    of [sendMessage], and one waits whenever the flag is up. *)
Lemma act_pending (h : happening) (t t' : Tab) :
  all_tails (page t) ->
  (isLoading (ui (world (page t))) = true -> suspended (page t) <> []) ->
  act h t = Some t' ->
  isLoading (ui (world (page t'))) = true -> suspended (page t') <> [].
Proof.
  intros Htails Hp A.
  destruct (act_cases _ _ _ Htails A)
    as [[_ ->] | [(value & _ & ->) | [(_ & _ & _ & _ & ->) | (p & rest & _ & E & ->)]]];
    simpl; try exact Hp.
  - intros _ H. apply app_eq_nil in H as [_ H]. discriminate H.
  - rewrite outcome_loading. discriminate.
Qed.

Lemma play_pending (hs : list happening) (t t' : Tab) :
  all_tails (page t) ->
  (isLoading (ui (world (page t))) = true -> suspended (page t) <> []) ->
  play hs t = Some t' ->
  all_tails (page t') /\
  (isLoading (ui (world (page t'))) = true -> suspended (page t') <> []).
Proof.
  revert t. induction hs as [|h rest IH]; intros t Htails Hp R.
  - injection R as <-. auto.
  - simpl in R. destruct (act h t) as [t1|] eqn:A; simpl in R; [|discriminate].
    exact (IH t1 (act_all_tails _ _ _ Htails A) (act_pending _ _ _ Htails Hp A) R).
Qed.

(** X11. The page cannot stay disabled with nothing to wait for.  From the
    first render on, whenever the cells are such that a render draws the
    typing line (and with it disables the field and the button), a call of
    [sendMessage] waits for its request; and however the oldest pending
    promise settles, a render of the cells then draws no typing line and
    enables both controls. *)
Theorem loading_has_pending (e : Env) (hs : list happening) (t : Tab) :
  (t0 ← open_tab e; play hs t0) = Some t ->
  typing (render (ui (world (page t)))) = true ->
  (exists rest, suspended (page t) = sendMessage_resume :: rest) /\
  (forall p, exists t',
     act (Handle (Settle p)) t = Some t' /\
     typing (render (ui (world (page t')))) = false /\
     field_disabled (render (ui (world (page t')))) = false /\
     button_disabled (render (ui (world (page t')))) = false).
Proof.
  destruct (open_tab e) as [t0|] eqn:Ho; simpl; [|discriminate]. intros R Hl.
  apply open_tab_shape in Ho as [Hm _].
  destruct (mount_posted _ _ Hm) as [_ Hs].
  apply mount_shape in Hm as (id & e1 & _ & Hpage).
  assert (Htails : all_tails (page t0)) by (unfold all_tails; rewrite Hs; constructor).
  assert (Hp : isLoading (ui (world (page t0))) = true -> suspended (page t0) <> [])
    by (rewrite Hpage; discriminate).
  destruct (play_pending _ _ _ Htails Hp R) as [Htails' Hp'].
  specialize (Hp' Hl). unfold all_tails in Htails'.
  destruct (suspended (page t)) as [|k rest] eqn:E; [contradiction|].
  apply Forall_cons in Htails' as [-> _]. split; [eauto|].
  intros p. eexists. split; [reflexivity|]. simpl.
  pose proof (outcome_loading (world (page t)) p) as Hout. unfold outcome in Hout.
  rewrite Hout. auto.
Qed.

Lemma loading_has_pending_witness :
  exists t,
    (t0 ← open_tab fresh_tab;
     play [Handle (Change "hi"); Rerender; Handle Click; Handle Click; Rerender;
           Handle (Settle (Rejected (AxiosError None))); Handle (Change "more"); Rerender;
           Handle (KeyPress "Enter")] t0) = Some t /\
    typing (render (ui (world (page t)))) = true /\
    (exists rest, suspended (page t) = sendMessage_resume :: rest) /\
    (forall p, exists t',
       act (Handle (Settle p)) t = Some t' /\
       typing (render (ui (world (page t')))) = false /\
       field_disabled (render (ui (world (page t')))) = false /\
       button_disabled (render (ui (world (page t')))) = false).
Proof.
  eexists. split; [reflexivity|]. split; [reflexivity|].
  apply (loading_has_pending fresh_tab
           [Handle (Change "hi"); Rerender; Handle Click; Handle Click; Rerender;
            Handle (Settle (Rejected (AxiosError None))); Handle (Change "more"); Rerender;
            Handle (KeyPress "Enter")]); reflexivity.
Defined.

(** X6. No settlement within the model is final for the page.  When a call
    waits and its promise settles (fulfilled with a reply of the shape of the
    contract, or rejected in any way, also when the catch block then throws),
    and the page is rendered again with a text that is not blank, a click
    sends a new request: it is the last of the log, it carries that text and
    the identifier that the settlement left, and the call waits behind those
    that waited before. *)
Theorem usable_after_settlement (t : Tab) (rest : list (settlement -> M World unit))
    (p : settlement) (value : string) :
  suspended (page t) = sendMessage_resume :: rest ->
  blank value = false ->
  exists t4,
    play [Handle (Settle p); Handle (Change value); Rerender; Handle Click] t = Some t4 /\
    suspended (page t4) = rest ++ [sendMessage_resume] /\
    isLoading (ui (world (page t4))) = true /\
    last (posted (env (world (page t4)))) =
      Some (chat_url,
            mkRequest (sessionId (ui (outcome sendMessage_resume p (world (page t))))) value).
Proof.
  intros Hs Hv. simpl. rewrite Hs. simpl.
  match goal with
  | |- context [call_from ?c ?s] =>
      destruct (call_from_cases c s) as [[_ [H | H]] | [-> _]]
  end.
  - simpl in H. congruence.
  - simpl in H. pose proof (outcome_loading (world (page t)) p) as Hout.
    unfold outcome in Hout. congruence.
  - eexists. split; [reflexivity|]. split; [reflexivity|]. split; [reflexivity|].
    simpl. apply last_snoc.
Qed.

Lemma usable_after_settlement_witness :
  exists t4,
    play [Handle (Settle (Rejected (AxiosError (Some (mkResponse JNull)))));
          Handle (Change "again"); Rerender; Handle Click]
         (mkTab (mkSystem typed_hi_loading [sendMessage_resume]) (ui typed_hi_loading))
      = Some t4 /\
    suspended (page t4) = [] ++ [sendMessage_resume] /\
    isLoading (ui (world (page t4))) = true /\
    last (posted (env (world (page t4)))) =
      Some (chat_url,
            mkRequest (sessionId (ui (outcome sendMessage_resume
                         (Rejected (AxiosError (Some (mkResponse JNull)))) typed_hi_loading)))
                      "again").
Proof.
  apply (usable_after_settlement
           (mkTab (mkSystem typed_hi_loading [sendMessage_resume]) (ui typed_hi_loading))
           [] (Rejected (AxiosError (Some (mkResponse JNull)))) "again"); reflexivity.
Defined.
